(** * gore: the session engine (session.go, commands.go)

    A shallow embedding of the read-eval-print engine of gore: the syntax
    tree of the session program, the checkpoint taken by [storeCode], the
    splicing functions [evalExpr], [evalStmt], [evalFunc], the token scan
    [parseTokens], the driver [Eval], and the commands [actionImport] and
    [actionType].

    The Go standard library (go/parser, go/scanner, go/types), the [go]
    tool and the quick-fix passes are outside the embedded sources; they
    are the fields of the record [Env], over which every statement is
    quantified. *)

From Stdlib Require Import String Ascii List Bool ZArith Lia.
Import ListNotations.
Local Open Scope string_scope.
Local Open Scope list_scope.
Set Warnings "-register-all".

(* ================================================================== *)
(** ** The few functions of package [strings] the engine calls

    Inputs are taken as ASCII text: [isSpace] is [unicode.IsSpace]
    restricted to the ASCII range. *)

Module Strings.

Definition isSpace (c : ascii) : bool :=
  let n := nat_of_ascii c in
  (Nat.eqb n 9 || Nat.eqb n 10 || Nat.eqb n 11 || Nat.eqb n 12
   || Nat.eqb n 13 || Nat.eqb n 32)%bool.

Definition isEmpty (s : string) : bool :=
  match s with EmptyString => true | String _ _ => false end.

Definition HasPrefix (s p : string) : bool := String.prefix p s.

Fixpoint Contains (s sub : string) : bool :=
  (String.prefix sub s
   || match s with
      | EmptyString => false
      | String _ r => Contains r sub
      end)%bool.

Fixpoint TrimLeftFunc (f : ascii -> bool) (s : string) : string :=
  match s with
  | EmptyString => EmptyString
  | String c r => if f c then TrimLeftFunc f r else s
  end.

Fixpoint TrimRightFunc (f : ascii -> bool) (s : string) : string :=
  match s with
  | EmptyString => EmptyString
  | String c r =>
      let r' := TrimRightFunc f r in
      if (f c && isEmpty r')%bool then EmptyString else String c r'
  end.

Definition TrimSpace (s : string) : string :=
  TrimRightFunc isSpace (TrimLeftFunc isSpace s).

Fixpoint inCutset (cutset : string) (c : ascii) : bool :=
  match cutset with
  | EmptyString => false
  | String d r => (Ascii.eqb c d || inCutset r c)%bool
  end.

Definition Trim (s cutset : string) : string :=
  TrimRightFunc (inCutset cutset) (TrimLeftFunc (inCutset cutset) s).

(** [fieldsFrom cur s]: the fields of [s], [cur] being the field under
    construction. *)
Fixpoint fieldsFrom (cur : string) (s : string) : list string :=
  match s with
  | EmptyString => if isEmpty cur then [] else [cur]
  | String c r =>
      if isSpace c
      then (if isEmpty cur then fieldsFrom EmptyString r
            else cur :: fieldsFrom EmptyString r)
      else fieldsFrom (cur ++ String c EmptyString)%string r
  end.

Definition Fields (s : string) : list string := fieldsFrom EmptyString s.

End Strings.

(* ================================================================== *)
(** ** Syntax trees (go/ast), as far as the engine inspects them *)

Inductive Expr : Type :=
| Ident (Name : string)
| BasicLit (Value : string)
| CallExpr (Fun : Expr) (Args : list Expr)
| OtherExpr (src : string).

Inductive Stmt : Type :=
| ExprStmt (X : Expr)
| AssignStmt (Lhs : list Expr) (Tok : string) (Rhs : list Expr)
| OtherStmt (src : string).

(** The body of a function declaration is a pointer to a block.  The
    engine writes to one block only, the one [s.mainBody] points to, so a
    body is either that cell ([MainBody], whose statement list is the
    field [mainBody] of the session), an immutable block given by its
    list, or nil. *)
Inductive Body : Type :=
| NilBody
| MainBody
| Block (List : list Stmt).

Inductive Spec : Type :=
| ImportSpec (Name : option string) (Path : string)
| OtherSpec (src : string).

Inductive GenTok : Type := IMPORT | CONST | TYPE | VAR.

Inductive Decl : Type :=
| GenDecl (Tok : GenTok) (Specs : list Spec)
| FuncDecl (Recv : option string) (Name : string) (Type_ : string)
           (Body_ : Body).

(** [ast.File]: the declarations and the file scope (name to declaring
    node), which the parser fills in. *)
Record File : Type := mkFile {
  Decls : list Decl;
  Scope : list (string * Decl)
}.

Fixpoint Lookup (scope : list (string * Decl)) (name : string)
  : option Decl :=
  match scope with
  | [] => None
  | (n, d) :: rest => if String.eqb n name then Some d else Lookup rest name
  end.

Inductive Token : Type := EOF | ILLEGAL | OtherToken (name : string).

(* ================================================================== *)
(** ** Errors and results *)

Inductive error : Type :=
| ErrContinue                       (* "<continue input>" *)
| ErrQuit                           (* "<quit session>" *)
| ErrCmdRun                         (* "<command failed>" *)
| ErrSyntax                         (* an error list of go/parser *)
| ErrEvalFunc                       (* "eval func error" *)
| ErrInvalidToken (lit : string)    (* "invalid token: %q" *)
| ErrArgRequired                    (* "argument is required" *)
| ErrCannotGetType (e : Expr)       (* "cannot get type: %v" *)
| ErrOther (msg : string).

(** What [s.Run()] returns: nil, an [*exec.ExitError] (with the exit
    status when its [Sys()] is a [syscall.WaitStatus]), or another
    error (creating the file, printing, starting the tool). *)
Inductive RunResult : Type :=
| RunNil
| RunExitError (status : option Z)
| RunOtherError.

(* ================================================================== *)
(** ** The session *)

Record Session : Type := mkSession {
  file : File;
  mainBody : list Stmt;       (* s.mainBody.List *)
  lastStmts : list Stmt;
  lastDecls : list Decl;
  autoImport : bool;
  stdout : list string;       (* lines the engine writes to s.stdout *)
  stderr : list error         (* errors the engine writes to s.stderr *)
}.

(** The program tree: the file and the list of the main block. *)
Definition Program : Type := (File * list Stmt)%type.

Definition program (s : Session) : Program := (file s, mainBody s).

Definition withProgram (f : Program -> Program) (s : Session) : Session :=
  let p := f (program s) in
  mkSession (fst p) (snd p) (lastStmts s) (lastDecls s) (autoImport s)
            (stdout s) (stderr s).

Definition setDecls (decls : list Decl) (s : Session) : Session :=
  mkSession (mkFile decls (Scope (file s))) (mainBody s) (lastStmts s)
            (lastDecls s) (autoImport s) (stdout s) (stderr s).

Definition setFile (f : File) (s : Session) : Session :=
  mkSession f (mainBody s) (lastStmts s) (lastDecls s) (autoImport s)
            (stdout s) (stderr s).

Definition setMainBody (l : list Stmt) (s : Session) : Session :=
  mkSession (file s) l (lastStmts s) (lastDecls s) (autoImport s)
            (stdout s) (stderr s).

Definition printErr (e : error) (s : Session) : Session :=
  mkSession (file s) (mainBody s) (lastStmts s) (lastDecls s) (autoImport s)
            (stdout s) (stderr s ++ [e]).

Definition printOut (line : string) (s : Session) : Session :=
  mkSession (file s) (mainBody s) (lastStmts s) (lastDecls s) (autoImport s)
            (stdout s ++ [line]) (stderr s).

(** A call either returns (the session it leaves and its error, [None]
    for nil) or panics. *)
Inductive Outcome : Type :=
| Returns (s : Session) (err : option error)
| Panics.

(* ================================================================== *)
(** ** The environment *)

Record Env : Type := mkEnv {
  (* parser.ParseExpr: [None] when err != nil *)
  ParseExpr : string -> option Expr;
  (* parser.ParseFile(fset, name, src, parser.Mode(0)): [None] when
     err != nil *)
  ParseFile : string -> option File;
  (* the successive results (tok, lit) of scanner.Scan() *)
  Scan : string -> list (Token * string);
  (* s.types.Importer.Import(path): its error *)
  Import : string -> option error;
  (* s.types.Check followed by s.typeInfo.TypeOf(expr): [None] when the
     type is nil or the invalid basic type *)
  TypeOf : Program -> Expr -> option string;
  (* the quick-fix passes of the session (quickfix.go) *)
  clearQuickFix : Program -> Program;
  doQuickFix : Program -> Program;
  (* s.fixImports(): printer.Fprint, imports.Process and
     parser.ParseFile in a row, the result replacing s.file and
     s.mainBody *)
  fixImports : Program -> Program;
  (* s.Run(): the program is printed and handed to [go run] *)
  Run : Program -> RunResult;
  (* s.invokeCommand(in): dispatch over the command table *)
  invokeCommand : string -> Session -> Session * option error
}.

(* ================================================================== *)
(** ** session.go *)

Definition printerName : string := "__gore_p".

Definition appendStatements (stmts : list Stmt) (s : Session) : Session :=
  setMainBody (mainBody s ++ stmts) s.

Definition isNamedIdent (expr : Expr) (name : string) : bool :=
  match expr with
  | Ident n => String.eqb n name
  | _ => false
  end.

(** [d] is an [*ast.FuncDecl] whose [Name.String()] is [name]. *)
Definition isFuncNamed (name : string) (d : Decl) : bool :=
  match d with
  | FuncDecl _ n _ _ => String.eqb n name
  | GenDecl _ _ => false
  end.

Section Engine.

Variable E : Env.

Definition evalExpr (in_ : string) (s : Session) : Session * option Expr :=
  match ParseExpr E in_ with
  | None => (s, None)
  | Some expr =>
      let stmt := ExprStmt (CallExpr (Ident printerName) [expr]) in
      (appendStatements [stmt] s, Some expr)
  end.

(** The statements [evalStmt] appends for the parsed list [stmts]. *)
Definition withPrintLastValues (stmts : list Stmt) : list Stmt :=
  match last (map Some stmts) None with
  | Some (AssignStmt Lhs _ _) =>
      let vs := filter (fun v => negb (isNamedIdent v "_")) Lhs in
      if Nat.ltb 0 (length vs)
      then stmts ++ [ExprStmt (CallExpr (Ident printerName) vs)]
      else stmts
  | _ => stmts
  end.

Definition evalStmt (in_ : string) (s : Session) : Outcome :=
  let src := ("package P; func F() { " ++ in_ ++ " }")%string in
  match ParseFile E src with
  | None => Returns s (Some ErrSyntax)
  | Some f =>
      match Lookup (Scope f) "F" with
      | Some (FuncDecl _ _ _ body) =>
          match body with
          | NilBody => Panics
          | MainBody =>
              Returns (appendStatements (withPrintLastValues (mainBody s)) s)
                      None
          | Block stmts =>
              Returns (appendStatements (withPrintLastValues stmts) s) None
          end
      | _ => Panics
      end
  end.

(** The loop of [evalFunc]: drop the first function declaration named
    [name]. *)
Fixpoint removeFunc (name : string) (decls : list Decl) : list Decl :=
  match decls with
  | [] => []
  | d :: rest =>
      if isFuncNamed name d then rest else d :: removeFunc name rest
  end.

Definition evalFunc (in_ : string) (s : Session) : Session * option error :=
  let src := ("package P; " ++ in_)%string in
  match ParseFile E src with
  | None => (s, Some ErrSyntax)
  | Some f =>
      match Decls f with
      | [FuncDecl recv name type body] =>
          let newDecl := FuncDecl recv name type body in
          (setDecls (removeFunc name (Decls (file s)) ++ [newDecl]) s, None)
      | _ => (s, Some ErrEvalFunc)
      end
  end.

Fixpoint parseTokensLoop (toks : list (Token * string)) : option error :=
  match toks with
  | [] => None
  | (EOF, _) :: _ => None
  | (ILLEGAL, lit) :: _ => Some (ErrInvalidToken lit)
  | (OtherToken _, _) :: rest => parseTokensLoop rest
  end.

Definition parseTokens (in_ : string) : option error :=
  parseTokensLoop (Scan E in_).

Definition storeCode (s : Session) : Session :=
  mkSession (file s) (mainBody s) (mainBody s) (Decls (file s))
            (autoImport s) (stdout s) (stderr s).

(** The loop of [restoreCode] over [s.file.Decls]; the inner loop over
    [s.lastDecls] is [find]. *)
Fixpoint restoreDecls (lastDecls decls : list Decl) : list Decl :=
  match decls with
  | [] => []
  | d :: rest =>
      match d with
      | FuncDecl _ name _ _ =>
          if negb (String.eqb name "main")
          then match find (isFuncNamed name) lastDecls with
               | Some ld => ld :: restoreDecls lastDecls rest
               | None => restoreDecls lastDecls rest
               end
          else d :: restoreDecls lastDecls rest
      | GenDecl _ _ => d :: restoreDecls lastDecls rest
      end
  end.

Definition restoreCode (s : Session) : Session :=
  let s := setMainBody (lastStmts s) s in
  setDecls (restoreDecls (lastDecls s) (Decls (file s))) s.

(** [Eval], lines 331-350: the input is tried as an expression, as a
    statement list, as a function declaration, and is scanned at last.
    An error here is what [Eval] returns at once. *)
Definition Eval_input (in_ : string) (s : Session) : Outcome :=
  match evalExpr in_ s with
  | (s, Some _) => Returns s None
  | (s, None) =>
      match evalStmt in_ s with
      | Panics => Panics
      | Returns s None => Returns s None
      | Returns s (Some _) =>
          match evalFunc in_ s with
          | (s, None) => Returns s None
          | (s, Some _) =>
              match parseTokens in_ with
              | Some err => Returns (printErr err s) (Some err)
              | None => Returns s (Some ErrContinue)
              end
          end
      end
  end.

(** [Eval], lines 352-355: the passes between splicing and running. *)
Definition Eval_fix (s : Session) : Session :=
  let s := if autoImport s then withProgram (fixImports E) s else s in
  withProgram (doQuickFix E) s.

(** [Eval], lines 357-372. *)
Definition Eval_run (s : Session) : Outcome :=
  match Run E (program s) with
  | RunNil => Returns s None
  | RunExitError (Some st) =>
      if Z.eqb st 2
      then Returns (restoreCode s) (Some ErrCmdRun)
      else Returns s (Some ErrCmdRun)
  | RunExitError None => Returns s (Some ErrCmdRun)
  | RunOtherError => Returns s (Some ErrCmdRun)
  end.

Definition isCommand (in_ : string) : bool :=
  Strings.HasPrefix (Strings.TrimSpace in_) ":".

Definition Eval (in_ : string) (s : Session) : Outcome :=
  let s := withProgram (clearQuickFix E) s in
  let s := storeCode s in
  if isCommand in_ then
    match invokeCommand E in_ s with
    | (s, None) => Returns s None
    | (s, Some ErrQuit) => Returns s (Some ErrQuit)
    | (s, Some err) => Returns (printErr err s) (Some err)
    end
  else
    match Eval_input in_ s with
    | Panics => Panics
    | Returns s (Some err) => Returns s (Some err)
    | Returns s None => Eval_run (Eval_fix s)
    end.

End Engine.

(* ================================================================== *)
(** ** commands.go *)

(** The paths of the import specifications of a file, in source order. *)
Definition specPaths (specs : list Spec) : list string :=
  flat_map (fun sp => match sp with
                      | ImportSpec _ path => [path]
                      | OtherSpec _ => []
                      end) specs.

Definition importPaths (decls : list Decl) : list string :=
  flat_map (fun d => match d with
                     | GenDecl IMPORT specs => specPaths specs
                     | _ => []
                     end) decls.

(** Modelled from the spec: [astutil.AddImport] of golang.org/x/tools is
    not among the sources.  Following section 4.5 it inserts the import
    into the import list if not already present, deduplicating by path.
    Where the new import lands among the others is left to the
    serializer's grouping there; here it becomes a declaration of its
    own in front of the others. *)
Definition AddImport (f : File) (path : string) : File :=
  if existsb (String.eqb path) (importPaths (Decls f))
  then f
  else mkFile (GenDecl IMPORT [ImportSpec None path] :: Decls f) (Scope f).

(** The one-character string holding a double quote. *)
Definition dquote : string := String (ascii_of_nat 34) EmptyString.

Section Commands.

Variable E : Env.

(** The loop of [actionImport] over [strings.Fields(arg)]; [rec] is the
    recursive call. *)
Fixpoint importEach (rec : Session -> string -> option (Session * option error))
         (vs : list string) (s : Session)
  : option (Session * option error) :=
  match vs with
  | [] => Some (s, None)
  | v :: vs =>
      if Strings.isEmpty v then importEach rec vs s
      else match rec s v with
           | None => None
           | Some (s, Some err) => Some (s, Some err)
           | Some (s, None) => importEach rec vs s
           end
  end.

(** [actionImport] calls itself on the fields of an argument that
    holds a space; [fuel] bounds the depth of these calls ([None] when
    it runs out), and [actionImportFuel_enough] below shows that depth
    two is never exceeded. *)
Fixpoint actionImportFuel (fuel : nat) (s : Session) (arg : string)
  : option (Session * option error) :=
  match fuel with
  | O => None
  | S fuel =>
      if Strings.isEmpty arg then Some (s, Some ErrArgRequired)
      else if Strings.Contains arg " " then
        importEach (actionImportFuel fuel) (Strings.Fields arg) s
      else
        let path := Strings.Trim arg dquote in
        match Import E path with
        | Some err => Some (s, Some err)
        | None => Some (setFile (AddImport (file s) path) s, None)
        end
  end.

Definition actionImport (s : Session) (arg : string)
  : option (Session * option error) :=
  actionImportFuel 2 s arg.

(** The body of [actionType] after [defer s.restoreCode()]. *)
Definition actionType_body (s : Session) (in_ : string)
  : Session * option error :=
  match evalExpr E in_ s with
  | (s, None) => (s, Some ErrSyntax)
  | (s, Some expr) =>
      match TypeOf E (program s) expr with
      | None => (s, Some (ErrCannotGetType expr))
      | Some typ => (printOut typ s, None)
      end
  end.

Definition actionType (s : Session) (in_ : string)
  : Session * option error :=
  if Strings.isEmpty in_ then (s, Some ErrArgRequired)
  else
    let s := withProgram (clearQuickFix E) s in
    let s := storeCode s in
    let '(s, err) := actionType_body s in_ in
    (restoreCode s, err).

End Commands.

(* ================================================================== *)
(** ** Vocabulary of the statements *)

(** The names of the function declarations of a sequence. *)
Definition funcNames (decls : list Decl) : list string :=
  flat_map (fun d => match d with
                     | FuncDecl _ n _ _ => [n]
                     | GenDecl _ _ => []
                     end) decls.

Definition isGenDecl (d : Decl) : bool :=
  match d with GenDecl _ _ => true | FuncDecl _ _ _ _ => false end.

(** [d] is a function, not the entry point, that [known] does not
    declare. *)
Definition isNewFunc (known : list Decl) (d : Decl) : bool :=
  match d with
  | FuncDecl _ n _ _ =>
      (negb (String.eqb n "main")
       && match find (isFuncNamed n) known with
          | Some _ => false
          | None => true
          end)%bool
  | GenDecl _ _ => false
  end.

(** The rule of [restore()] for one declaration of the current
    sequence, [last] being the checkpoint: anything that is not a
    function, and the entry point, stay; any other function gives way to
    the first function of its name in the checkpoint, or goes. *)
Definition restoredDecl (last : list Decl) (d : Decl) : list Decl :=
  match d with
  | GenDecl _ _ => [d]
  | FuncDecl _ n _ _ =>
      if String.eqb n "main" then [d]
      else match find (isFuncNamed n) last with
           | Some ld => [ld]
           | None => []
           end
  end.

(** The rule as the specification words it, where every function
    currently present, the entry point included, gives way to the
    checkpoint's function of its name. *)
Definition restoredDecl_asWorded (last : list Decl) (d : Decl) : list Decl :=
  match d with
  | GenDecl _ _ => [d]
  | FuncDecl _ n _ _ =>
      match find (isFuncNamed n) last with
      | Some ld => [ld]
      | None => []
      end
  end.

(** Replacement in place, as the specification words redefinition: the
    first function named [name] is overwritten where it stands. *)
Fixpoint replaceInPlace (name : string) (new : Decl) (decls : list Decl)
  : list Decl :=
  match decls with
  | [] => [new]
  | d :: rest =>
      if isFuncNamed name d then new :: rest
      else d :: replaceInPlace name new rest
  end.

(** The call of the print helper on [args], as a statement. *)
Definition printCall (args : list Expr) : Stmt :=
  ExprStmt (CallExpr (Ident printerName) args).

Definition stmtSrc (in_ : string) : string :=
  ("package P; func F() { " ++ in_ ++ " }")%string.

Definition funcSrc (in_ : string) : string := ("package P; " ++ in_)%string.

(** The scanner meets the illegal token [lit] before the end of the
    input. *)
Definition scansIllegal (toks : list (Token * string)) (lit : string) : Prop :=
  exists pre post,
    toks = pre ++ (ILLEGAL, lit) :: post
    /\ Forall (fun tk => exists n, fst tk = OtherToken n) pre.

(** Lines 320-321 of [Eval]: the state the checkpoint is taken of. *)
Definition checkpointed (E : Env) (s : Session) : Session :=
  storeCode (withProgram (clearQuickFix E) s).

(** Successive evaluations, stopping at the first that panics. *)
Fixpoint evalAll (E : Env) (inputs : list string) (s : Session)
  : option Session :=
  match inputs with
  | [] => Some s
  | in_ :: rest =>
      match Eval E in_ s with
      | Returns s' _ => evalAll E rest s'
      | Panics => None
      end
  end.

(* ================================================================== *)
(** ** The command line: [invokeCommand]

    [commandName.matches], and the error [fmt.Errorf] makes of a command
    name and the error of its action, rest on code outside the embedded
    sources; they are the variables [matches] and [Errorf].  The command
    table is a variable too: most of its actions are input and output. *)

Module Cmd.

Record command : Type := mkCommand {
  name : string;
  action : Session -> string -> Session * option error
}.

Definition isColonOrSpace (c : ascii) : bool :=
  (Ascii.eqb c ":" || Strings.isSpace c)%bool.

Fixpoint drop (n : nat) (s : string) : string :=
  match n, s with
  | O, _ => s
  | S _, EmptyString => EmptyString
  | S n, String _ r => drop n r
  end.

Definition TrimPrefix (s p : string) : string :=
  if Strings.HasPrefix s p then drop (String.length p) s else s.

Section Dispatch.

Variable matches : string -> string -> bool.
Variable Errorf : string -> error -> error.
Variable commands : list command.

(** The loop of [invokeCommand] over the command table. *)
Fixpoint dispatch (cmds : list command) (s : Session) (cmd arg : string)
  : Session * option error :=
  match cmds with
  | [] => (s, Some (ErrOther ("command not found: " ++ cmd)%string))
  | c :: rest =>
      if negb (matches (name c) cmd) then dispatch rest s cmd arg
      else match action c s arg with
           | (s, None) => (s, None)
           | (s, Some ErrQuit) => (s, Some ErrQuit)
           | (s, Some err) => (s, Some (Errorf (name c) err))
           end
  end.

Definition invokeCommand (in_ : string) (s : Session)
  : Session * option error :=
  let in_ := Strings.TrimLeftFunc isColonOrSpace in_ in
  match Strings.Fields in_ with
  | [] => (s, None)
  | cmd :: _ =>
      let arg := Strings.TrimSpace (TrimPrefix in_ cmd) in
      dispatch commands s cmd arg
  end.

End Dispatch.

End Cmd.

(** Every character of [s] satisfies [f]. *)
Fixpoint allChars (f : ascii -> bool) (s : string) : bool :=
  match s with
  | EmptyString => true
  | String c r => (f c && allChars f r)%bool
  end.

(** The session after the paths [vs] were imported one after the other. *)
Definition importAll (vs : list string) (s : Session) : Session :=
  fold_left (fun s v => setFile (AddImport (file s) (Strings.Trim v dquote)) s)
            vs s.

(* ================================================================== *)
(** ** A concrete environment

    A table-driven stand-in for the parser, the scanner and the tool,
    on which the statements below are exercised. *)

Module Sample.

Fixpoint assoc {A : Type} (tbl : list (string * A)) (k : string) : option A :=
  match tbl with
  | [] => None
  | (k', v) :: rest => if String.eqb k' k then Some v else assoc rest k
  end.

(** The program [init] parses from the template, [fmt] being the printing
    package. *)
Definition printerDecl : Decl :=
  FuncDecl None printerName "(xx ...interface{})"
           (Block [OtherStmt "for _, x := range xx { ... }"]).

Definition mainDecl : Decl := FuncDecl None "main" "()" MainBody.

Definition importFmtDecl : Decl := GenDecl IMPORT [ImportSpec None "fmt"].

Definition initialFile : File :=
  mkFile [importFmtDecl; printerDecl; mainDecl]
         [(printerName, printerDecl); ("main", mainDecl)].

Definition session0 : Session := mkSession initialFile [] [] [] false [] [].

Definition declF : Decl :=
  FuncDecl None "f" "() int" (Block [OtherStmt "return 1"]).
Definition declF' : Decl :=
  FuncDecl None "f" "() int" (Block [OtherStmt "return 2"]).
Definition declG : Decl := FuncDecl None "g" "()" (Block []).
Definition declMain' : Decl :=
  FuncDecl None "main" "()" (Block [OtherStmt "panic(1)"]).

Definition fileOf (name : string) (d : Decl) : File := mkFile [d] [(name, d)].

Definition wrapF (stmts : list Stmt) : File :=
  fileOf "F" (FuncDecl None "F" "()" (Block stmts)).

Definition callFoo : Expr := CallExpr (Ident "foo") [].

Definition inF : string := "func f() int { return 1 }".
Definition inF' : string := "func f() int { return 2 }".
Definition inG : string := "func g() {}".
Definition inMain' : string := "func main() { panic(1) }".
Definition inImport : string := ("import " ++ dquote ++ "fmt" ++ dquote)%string.

Definition exprs : list (string * Expr) :=
  [("1", BasicLit "1"); ("x", Ident "x")].

Definition files : list (string * File) :=
  [(stmtSrc "x, _ := foo()",
    wrapF [AssignStmt [Ident "x"; Ident "_"] ":=" [callFoo]]);
   (stmtSrc "_, _ := foo()",
    wrapF [AssignStmt [Ident "_"; Ident "_"] ":=" [callFoo]]);
   (stmtSrc "y := 2; y++", wrapF [AssignStmt [Ident "y"] ":=" [BasicLit "2"];
                                  OtherStmt "y++"]);
   (funcSrc inF, fileOf "f" declF);
   (funcSrc inF', fileOf "f" declF');
   (funcSrc inG, fileOf "g" declG);
   (funcSrc inMain', fileOf "main" declMain');
   (funcSrc inImport, mkFile [importFmtDecl] [])].

Definition scan (in_ : string) : list (Token * string) :=
  if String.eqb in_ "if true {" then
    [(OtherToken "if", "if"); (OtherToken "IDENT", "true");
     (OtherToken "{", ""); (EOF, "")]
  else if String.eqb in_ "a # b" then
    [(OtherToken "IDENT", "a"); (ILLEGAL, "#"); (OtherToken "IDENT", "b");
     (OtherToken ";", ""); (EOF, "")]
  else if String.eqb in_ inImport then
    [(OtherToken "import", "import"); (OtherToken "STRING", "fmt");
     (OtherToken ";", ""); (EOF, "")]
  else [(EOF, "")].

Definition importer (path : string) : option error :=
  if String.eqb path "fmt" then None
  else if String.eqb path "os" then None
  else Some (ErrOther "cannot find package").

(** The environment in which every run ends as [run] says and the
    quick-fix passes leave the tree alone. *)
Definition env (run : Program -> RunResult) : Env :=
  mkEnv (assoc exprs) (assoc files) scan importer
        (fun _ _ => Some "int")
        (fun p => p) (fun p => p) (fun p => p)
        run
        (fun _ s => (s, None)).

Definition exits (n : Z) : Program -> RunResult :=
  fun _ => RunExitError (Some n).

Definition succeeds : Program -> RunResult := fun _ => RunNil.

(** A session in which the user has replaced the entry point after the
    checkpoint was taken. *)
Definition sessionMainReplaced : Session :=
  mkSession (mkFile [importFmtDecl; printerDecl; declMain']
                    (Scope initialFile))
            [] [] [importFmtDecl; printerDecl; mainDecl] false [] [].

(** A session holding [f] and [g], checkpoint taken. *)
Definition sessionFG : Session :=
  storeCode
    (mkSession (mkFile [importFmtDecl; printerDecl; mainDecl; declF; declG]
                       (Scope initialFile))
               [printCall [BasicLit "1"]] [] [] false [] []).

(** A command table: import, type and quit, a command word matching a
    name by its first letter. *)
Definition firstLetter (name cmd : string) : bool :=
  String.eqb (String.substring 0 1 name) (String.substring 0 1 cmd).

Definition errorf (name : string) (e : error) : error :=
  ErrOther (name ++ ": failed")%string.

Definition importAction (s : Session) (arg : string)
  : Session * option error :=
  match actionImport (env succeeds) s arg with
  | Some r => r
  | None => (s, Some (ErrOther "no result"))
  end.

Definition table : list Cmd.command :=
  [Cmd.mkCommand "i[mport]" importAction;
   Cmd.mkCommand "t[ype]" (actionType (env succeeds));
   Cmd.mkCommand "q[uit]" (fun s _ => (s, Some ErrQuit))].

(** The environment whose command lines go through that table. *)
Definition cmdEnv : Env :=
  mkEnv (assoc exprs) (assoc files) scan importer
        (fun _ _ => Some "int")
        (fun p => p) (fun p => p) (fun p => p)
        succeeds
        (Cmd.invokeCommand firstLetter errorf table).

(** A clearing pass that drops from the main block the statements
    assigning to the blank identifier alone, and an environment and a
    session to run it on. *)
Definition isBlankAssign (st : Stmt) : bool :=
  match st with
  | AssignStmt [lhs] _ _ => isNamedIdent lhs "_"
  | _ => false
  end.

Definition dropBlankAssigns (p : Program) : Program :=
  (fst p, filter (fun st => negb (isBlankAssign st)) (snd p)).

Definition clearingEnv : Env :=
  mkEnv (assoc exprs) (assoc files) scan importer
        (fun _ _ => Some "int")
        dropBlankAssigns (fun p => p) (fun p => p)
        succeeds
        (fun _ s => (s, None)).

Definition sessionBlank : Session :=
  mkSession initialFile [AssignStmt [Ident "_"] "=" [Ident "x"]]
            [] [] false [] [].

End Sample.

(* ================================================================== *)
(** ** Checkpoint and rollback: [storeCode], [restoreCode] *)

Lemma isFuncNamed_true (n : string) (d : Decl) :
  isFuncNamed n d = true ->
  exists r t b, d = FuncDecl r n t b.
Proof.
  destruct d as [tok specs | r m t b]; simpl; intro H.
  - discriminate.
  - apply String.eqb_eq in H. subst m. now exists r, t, b.
Qed.

Lemma find_isFuncNamed (n : string) (l : list Decl) (d : Decl) :
  find (isFuncNamed n) l = Some d ->
  In d l /\ exists r t b, d = FuncDecl r n t b.
Proof.
  intro H. apply find_some in H. destruct H as [Hin Hn].
  split; [assumption | now apply isFuncNamed_true].
Qed.

Lemma restoreDecls_restoredDecl (last decls : list Decl) :
  restoreDecls last decls = flat_map (restoredDecl last) decls.
Proof.
  induction decls as [| d rest IH]; simpl; [reflexivity |].
  destruct d as [tok specs | r n t b]; simpl.
  - now rewrite IH.
  - destruct (String.eqb n "main"); simpl.
    + now rewrite IH.
    + destruct (find (isFuncNamed n) last); simpl; now rewrite IH.
Qed.

Lemma restoreDecls_app (last a b : list Decl) :
  restoreDecls last (a ++ b) = restoreDecls last a ++ restoreDecls last b.
Proof.
  rewrite !restoreDecls_restoredDecl. apply flat_map_app.
Qed.

Lemma restoredDecl_fixed (last : list Decl) (d d' : Decl) :
  In d' (restoredDecl last d) -> restoredDecl last d' = [d'].
Proof.
  destruct d as [tok specs | r n t b]; simpl.
  - intros [<- | []]. reflexivity.
  - destruct (String.eqb n "main") eqn:Hmain.
    + intros [<- | []]. simpl. now rewrite Hmain.
    + destruct (find (isFuncNamed n) last) as [ld |] eqn:Hfind.
      * intros [<- | []].
        destruct (find_isFuncNamed _ _ _ Hfind) as [_ (r' & t' & b' & ->)].
        simpl. now rewrite Hmain, Hfind.
      * intros [].
Qed.

Lemma flat_map_fixed {A : Type} (f : A -> list A) (l : list A) :
  (forall x, In x l -> f x = [x]) -> flat_map f l = l.
Proof.
  induction l as [| x l IH]; simpl; intro H; [reflexivity |].
  rewrite (H x (or_introl eq_refl)). simpl. f_equal.
  apply IH. intros y Hy. apply H. now right.
Qed.

Lemma restoreDecls_idempotent (last decls : list Decl) :
  restoreDecls last (restoreDecls last decls) = restoreDecls last decls.
Proof.
  rewrite !restoreDecls_restoredDecl.
  apply flat_map_fixed. intros d' Hin.
  apply in_flat_map in Hin. destruct Hin as (d & _ & Hd).
  now apply restoredDecl_fixed with d.
Qed.

Lemma find_unique_func (decls : list Decl) (r : option string)
      (n t : string) (b : Body) :
  NoDup (funcNames decls) ->
  In (FuncDecl r n t b) decls ->
  find (isFuncNamed n) decls = Some (FuncDecl r n t b).
Proof.
  induction decls as [| d rest IH]; simpl; intros Hnd Hin; [contradiction |].
  destruct d as [tok specs | r' n' t' b']; simpl in *.
  - destruct Hin as [Heq | Hin]; [discriminate | now apply IH].
  - inversion Hnd as [| x l Hnotin Hnd']; subst.
    destruct Hin as [Heq | Hin].
    + inversion Heq; subst. now rewrite String.eqb_refl.
    + destruct (String.eqb n' n) eqn:Hn.
      * apply String.eqb_eq in Hn. subst n'. exfalso. apply Hnotin.
        unfold funcNames. apply in_flat_map.
        exists (FuncDecl r n t b). split; [assumption | now left].
      * now apply IH.
Qed.

Lemma restoreDecls_same (decls : list Decl) :
  NoDup (funcNames decls) -> restoreDecls decls decls = decls.
Proof.
  intro Hnd. rewrite restoreDecls_restoredDecl.
  apply flat_map_fixed. intros d Hin.
  destruct d as [tok specs | r n t b]; simpl; [reflexivity |].
  destruct (String.eqb n "main"); [reflexivity |].
  now rewrite (find_unique_func decls r n t b Hnd Hin).
Qed.

Lemma restoreDecls_new (last extra : list Decl) :
  forallb (isNewFunc last) extra = true -> restoreDecls last extra = [].
Proof.
  induction extra as [| d rest IH]; simpl; intro H; [reflexivity |].
  apply andb_true_iff in H. destruct H as [Hd Hrest].
  destruct d as [tok specs | r n t b]; simpl in *; [discriminate |].
  apply andb_true_iff in Hd. destruct Hd as [Hmain Hfind].
  rewrite Hmain.
  destruct (find (isFuncNamed n) last); [discriminate | now apply IH].
Qed.

Lemma restoreDecls_extended (last extra : list Decl) :
  NoDup (funcNames last) ->
  forallb (isNewFunc last) extra = true ->
  restoreDecls last (last ++ extra) = last.
Proof.
  intros Hnd Hnew.
  rewrite restoreDecls_app, restoreDecls_same, restoreDecls_new by assumption.
  apply app_nil_r.
Qed.

Lemma filter_isGenDecl_restoredDecl (last decls : list Decl) :
  filter isGenDecl (flat_map (restoredDecl last) decls)
  = filter isGenDecl decls.
Proof.
  induction decls as [| d rest IH]; simpl; [reflexivity |].
  rewrite filter_app, IH.
  destruct d as [tok specs | r n t b]; simpl; [reflexivity |].
  destruct (String.eqb n "main"); [reflexivity |].
  destruct (find (isFuncNamed n) last) as [ld |] eqn:Hfind; [| reflexivity].
  destruct (find_isFuncNamed _ _ _ Hfind) as [_ (r' & t' & b' & ->)].
  reflexivity.
Qed.

Lemma restoredDecl_unknown_name (last decls : list Decl) (n : string) :
  n <> "main" ->
  find (isFuncNamed n) last = None ->
  filter (isFuncNamed n) (flat_map (restoredDecl last) decls) = [].
Proof.
  intros Hmain Hnone.
  induction decls as [| d rest IH]; simpl; [reflexivity |].
  rewrite filter_app, IH, app_nil_r.
  destruct d as [tok specs | r m t b]; simpl; [reflexivity |].
  destruct (String.eqb m "main") eqn:Hm.
  - apply String.eqb_eq in Hm. subst m. cbn -[String.eqb].
    destruct (String.eqb "main" n) eqn:Hn; [| reflexivity].
    apply String.eqb_eq in Hn. congruence.
  - destruct (find (isFuncNamed m) last) as [ld |] eqn:Hfind; [| reflexivity].
    destruct (find_isFuncNamed _ _ _ Hfind) as [_ (r' & t' & b' & ->)].
    cbn -[String.eqb]. destruct (String.eqb m n) eqn:Hn; [| reflexivity].
    apply String.eqb_eq in Hn. subst m. congruence.
Qed.

(** C5 (as amended).  [restoreCode] overwrites the list of the main block
    with the checkpoint's statements and rebuilds the declarations by
    [restoredDecl]: a declaration that is not a function, and the
    entry-point function itself, is kept as it is; every other function
    currently present is replaced by the first function of the same name
    in the checkpoint, and dropped when the checkpoint has none.  So the
    non-function declarations are untouched, and a function (other than
    the entry point) that the checkpoint does not know is gone.  The
    checkpoint itself is not consumed. *)
Theorem restoreCode_rule (s : Session) :
  mainBody (restoreCode s) = lastStmts s
  /\ Decls (file (restoreCode s))
     = flat_map (restoredDecl (lastDecls s)) (Decls (file s))
  /\ filter isGenDecl (Decls (file (restoreCode s)))
     = filter isGenDecl (Decls (file s))
  /\ (forall n, n <> "main" ->
        find (isFuncNamed n) (lastDecls s) = None ->
        filter (isFuncNamed n) (Decls (file (restoreCode s))) = [])
  /\ lastStmts (restoreCode s) = lastStmts s
  /\ lastDecls (restoreCode s) = lastDecls s.
Proof.
  unfold restoreCode; simpl.
  rewrite restoreDecls_restoredDecl.
  repeat split.
  - apply filter_isGenDecl_restoredDecl.
  - intros n Hmain Hnone. now apply restoredDecl_unknown_name.
Qed.

Lemma restoreCode_rule_witness :
  filter (isFuncNamed "g")
         (Decls (file (restoreCode
                         (setDecls (Decls (file Sample.session0)
                                    ++ [Sample.declG])
                                   (storeCode Sample.session0))))) = [].
Proof.
  apply (restoreCode_rule
           (setDecls (Decls (file Sample.session0) ++ [Sample.declG])
                     (storeCode Sample.session0))).
  - discriminate.
  - reflexivity.
Defined.

(** C5, as worded, fails where the entry point itself was replaced after
    the checkpoint (the state [Eval] reaches on [func main() { panic(1) }]
    from a fresh session): the guard on the name [main] keeps the current
    entry point, where the wording hands it to the checkpoint's. *)
Lemma restoreCode_keeps_current_main :
  Eval_input (Sample.env (Sample.exits 2)) Sample.inMain'
             (checkpointed (Sample.env (Sample.exits 2)) Sample.session0)
  = Returns Sample.sessionMainReplaced None
  /\ Decls (file (restoreCode Sample.sessionMainReplaced))
     = [Sample.importFmtDecl; Sample.printerDecl; Sample.declMain']
  /\ flat_map (restoredDecl_asWorded (lastDecls Sample.sessionMainReplaced))
              (Decls (file Sample.sessionMainReplaced))
     = [Sample.importFmtDecl; Sample.printerDecl; Sample.mainDecl]
  /\ Decls (file (restoreCode Sample.sessionMainReplaced))
     <> flat_map (restoredDecl_asWorded
                    (lastDecls Sample.sessionMainReplaced))
                 (Decls (file Sample.sessionMainReplaced)).
Proof.
  repeat split; try reflexivity.
  vm_compute. intro H. discriminate H.
Qed.

Lemma restoreCode_twice (s : Session) :
  restoreCode (restoreCode s) = restoreCode s.
Proof.
  unfold restoreCode, setDecls, setMainBody; simpl.
  now rewrite restoreDecls_idempotent.
Qed.

Lemma restoreCode_unchanged (s : Session) :
  mainBody s = lastStmts s ->
  Decls (file s) = lastDecls s ->
  NoDup (funcNames (Decls (file s))) ->
  restoreCode s = s.
Proof.
  intros Hb Hd Hnd.
  destruct s as [[decls scope] body stmts last auto out err].
  simpl in *. subst stmts last.
  unfold restoreCode, setDecls, setMainBody; simpl.
  now rewrite restoreDecls_same.
Qed.

(** C6.  [restoreCode] is idempotent: a second call in a row leaves the
    session, hence the main block and the declarations, as the first
    call left them.  And where nothing changed since the checkpoint
    (the main block and the declarations are those stored, the functions
    being uniquely named as the data model has it), the call changes
    nothing. *)
Theorem restoreCode_idempotent (s : Session) :
  restoreCode (restoreCode s) = restoreCode s
  /\ (mainBody s = lastStmts s ->
      Decls (file s) = lastDecls s ->
      NoDup (funcNames (Decls (file s))) ->
      mainBody (restoreCode s) = mainBody s
      /\ Decls (file (restoreCode s)) = Decls (file s)
      /\ restoreCode s = s).
Proof.
  split.
  - apply restoreCode_twice.
  - intros Hb Hd Hnd.
    rewrite (restoreCode_unchanged s Hb Hd Hnd). auto.
Qed.

Lemma restoreCode_idempotent_witness :
  restoreCode Sample.sessionFG = Sample.sessionFG.
Proof.
  apply (restoreCode_idempotent Sample.sessionFG).
  - reflexivity.
  - reflexivity.
  - vm_compute. repeat constructor; simpl; intuition discriminate.
Defined.

(* ================================================================== *)
(** ** The driver: [Eval] *)

Ltac break_match :=
  match goal with
  | |- context [match ?x with _ => _ end] => destruct x eqn:?
  | H : context [match ?x with _ => _ end] |- _ => destruct x eqn:?
  end.

Lemma Eval_unfold (E : Env) (in_ : string) (s : Session) :
  isCommand in_ = false ->
  Eval E in_ s
  = match Eval_input E in_ (checkpointed E s) with
    | Panics => Panics
    | Returns s1 (Some err) => Returns s1 (Some err)
    | Returns s1 None => Eval_run E (Eval_fix E s1)
    end.
Proof.
  intro Hcmd. unfold Eval, checkpointed. now rewrite Hcmd.
Qed.

(** Splicing leaves the checkpoint alone. *)
Lemma Eval_input_frame (E : Env) (in_ : string) (s s1 : Session)
      (err : option error) :
  Eval_input E in_ s = Returns s1 err ->
  lastStmts s1 = lastStmts s /\ lastDecls s1 = lastDecls s.
Proof.
  unfold Eval_input, evalExpr, evalStmt, evalFunc.
  intro H. repeat break_match; inversion H; subst; simpl;
    try discriminate;
    repeat match goal with
           | H' : (_, _) = (_, _) |- _ => inversion H'; subst; clear H'
           | H' : Returns _ _ = Returns _ _ |- _ =>
               inversion H'; subst; clear H'
           end; simpl; auto.
Qed.

Lemma Eval_fix_frame (E : Env) (s : Session) :
  lastStmts (Eval_fix E s) = lastStmts s
  /\ lastDecls (Eval_fix E s) = lastDecls s.
Proof.
  unfold Eval_fix. destruct (autoImport s); simpl; auto.
Qed.

Lemma checkpointed_program (E : Env) (s : Session) :
  program (checkpointed E s) = clearQuickFix E (program s)
  /\ lastStmts (checkpointed E s) = mainBody (checkpointed E s)
  /\ lastDecls (checkpointed E s) = Decls (file (checkpointed E s)).
Proof.
  unfold checkpointed, storeCode, withProgram, program; simpl.
  destruct (clearQuickFix E (file s, mainBody s)); auto.
Qed.

(** On exit status 2 the main block is the checkpointed one again,
    whatever was spliced. *)
Lemma Eval_status2_statements (E : Env) (in_ : string) (s s1 : Session) :
  isCommand in_ = false ->
  Eval_input E in_ (checkpointed E s) = Returns s1 None ->
  Run E (program (Eval_fix E s1)) = RunExitError (Some 2%Z) ->
  Eval E in_ s = Returns (restoreCode (Eval_fix E s1)) (Some ErrCmdRun)
  /\ mainBody (restoreCode (Eval_fix E s1)) = mainBody (checkpointed E s)
  /\ Decls (file (restoreCode (Eval_fix E s1)))
     = restoreDecls (Decls (file (checkpointed E s)))
                    (Decls (file (Eval_fix E s1))).
Proof.
  intros Hcmd Hin Hrun.
  rewrite (Eval_unfold E in_ s Hcmd), Hin.
  unfold Eval_run. rewrite Hrun, Z.eqb_refl.
  destruct (Eval_input_frame E _ _ _ _ Hin) as [Hs Hd].
  destruct (Eval_fix_frame E s1) as [Hs' Hd'].
  destruct (checkpointed_program E s) as (_ & Hcs & Hcd).
  split; [reflexivity |]. split.
  - change (mainBody (restoreCode (Eval_fix E s1)))
      with (lastStmts (Eval_fix E s1)).
    now rewrite Hs', Hs.
  - change (Decls (file (restoreCode (Eval_fix E s1))))
      with (restoreDecls (lastDecls (Eval_fix E s1))
                         (Decls (file (Eval_fix E s1)))).
    now rewrite Hd', Hd, Hcd.
Qed.

(** C1 (as amended).  When the run of a non-command input ends with the
    exit status 2, [Eval] reports the failure and restores the
    checkpoint: the statements of the entry point are those checkpointed
    before the input was spliced, and so are the declarations, provided
    the functions of the checkpoint are uniquely named and the
    declarations at the time of the run are the checkpointed ones
    followed by functions the checkpoint did not know (none for an
    expression or a statement list, the new function for a first
    declaration). *)
Theorem Eval_status2_restores (E : Env) (in_ : string) (s s1 : Session)
        (extra : list Decl) :
  isCommand in_ = false ->
  Eval_input E in_ (checkpointed E s) = Returns s1 None ->
  Run E (program (Eval_fix E s1)) = RunExitError (Some 2%Z) ->
  NoDup (funcNames (Decls (file (checkpointed E s)))) ->
  Decls (file (Eval_fix E s1)) = Decls (file (checkpointed E s)) ++ extra ->
  forallb (isNewFunc (Decls (file (checkpointed E s)))) extra = true ->
  exists s',
    Eval E in_ s = Returns s' (Some ErrCmdRun)
    /\ mainBody s' = mainBody (checkpointed E s)
    /\ Decls (file s') = Decls (file (checkpointed E s)).
Proof.
  intros Hcmd Hin Hrun Hnd Hdecls Hnew.
  destruct (Eval_status2_statements E in_ s s1 Hcmd Hin Hrun)
    as (Heval & Hbody & Hd).
  exists (restoreCode (Eval_fix E s1)). repeat split; try assumption.
  rewrite Hd, Hdecls. now apply restoreDecls_extended.
Qed.

Lemma Eval_status2_restores_witness :
  exists s',
    Eval (Sample.env (Sample.exits 2)) Sample.inF Sample.session0
    = Returns s' (Some ErrCmdRun)
    /\ mainBody s' = []
    /\ Decls (file s') = Decls Sample.initialFile.
Proof.
  apply (Eval_status2_restores
           (Sample.env (Sample.exits 2)) Sample.inF Sample.session0
           (setDecls (Decls Sample.initialFile ++ [Sample.declF])
                     (storeCode Sample.session0))
           [Sample.declF]).
  - reflexivity.
  - reflexivity.
  - reflexivity.
  - vm_compute. repeat constructor; simpl; intuition discriminate.
  - reflexivity.
  - reflexivity.
Defined.

(** C1, as worded, fails: a run that ends with a nonzero status other
    than 2 is reported but not rolled back, and the print statement
    spliced for the input [1] stays in the entry point. *)
Lemma Eval_status1_keeps_input :
  Run (Sample.env (Sample.exits 1))
      (program (appendStatements [printCall [BasicLit "1"]]
                                 (storeCode Sample.session0)))
  = RunExitError (Some 1%Z)
  /\ exists s',
      Eval (Sample.env (Sample.exits 1)) "1" Sample.session0
      = Returns s' (Some ErrCmdRun)
      /\ mainBody s' = [printCall [BasicLit "1"]]
      /\ mainBody s' <> mainBody Sample.session0.
Proof.
  split; [reflexivity |].
  eexists. split; [reflexivity |]. split; [reflexivity |].
  simpl. discriminate.
Qed.

(* ------------------------------------------------------------------ *)
(** *** Classification of the input *)

Lemma Eval_input_expr (E : Env) (in_ : string) (s : Session) (e : Expr) :
  ParseExpr E in_ = Some e ->
  Eval_input E in_ s = Returns (appendStatements [printCall [e]] s) None.
Proof.
  intro H. unfold Eval_input, evalExpr. now rewrite H.
Qed.

Lemma Eval_input_stmt (E : Env) (in_ : string) (s : Session) (f : File)
      (r : option string) (n t : string) (stmts : list Stmt) :
  ParseExpr E in_ = None ->
  ParseFile E (stmtSrc in_) = Some f ->
  Lookup (Scope f) "F" = Some (FuncDecl r n t (Block stmts)) ->
  Eval_input E in_ s
  = Returns (appendStatements (withPrintLastValues stmts) s) None.
Proof.
  intros He Hf Hl. unfold Eval_input, evalExpr, evalStmt.
  fold (stmtSrc in_). now rewrite He, Hf, Hl.
Qed.

Lemma Eval_input_func (E : Env) (in_ : string) (s : Session) (f : File)
      (r : option string) (n t : string) (b : Body) :
  ParseExpr E in_ = None ->
  ParseFile E (stmtSrc in_) = None ->
  ParseFile E (funcSrc in_) = Some f ->
  Decls f = [FuncDecl r n t b] ->
  Eval_input E in_ s
  = Returns (setDecls (removeFunc n (Decls (file s)) ++ [FuncDecl r n t b]) s)
            None.
Proof.
  intros He Hs Hf Hd. unfold Eval_input, evalExpr, evalStmt, evalFunc.
  fold (stmtSrc in_). fold (funcSrc in_). now rewrite He, Hs, Hf, Hd.
Qed.

(** When no interpretation is taken, the scan decides and the session
    is left as it was, but for the line written to the error stream. *)
Lemma Eval_input_scan (E : Env) (in_ : string) (s : Session) :
  ParseExpr E in_ = None ->
  ParseFile E (stmtSrc in_) = None ->
  (ParseFile E (funcSrc in_) = None
   \/ exists f, ParseFile E (funcSrc in_) = Some f
                /\ forall r n t b, Decls f <> [FuncDecl r n t b]) ->
  Eval_input E in_ s
  = match parseTokens E in_ with
    | Some err => Returns (printErr err s) (Some err)
    | None => Returns s (Some ErrContinue)
    end.
Proof.
  intros He Hs Hf. unfold Eval_input, evalExpr, evalStmt, evalFunc.
  fold (stmtSrc in_). fold (funcSrc in_). rewrite He, Hs.
  destruct Hf as [Hf | (f & Hf & Hd)]; rewrite Hf; [reflexivity |].
  destruct (Decls f) as [| [tok specs | r n t b] [| d' rest]];
    try reflexivity.
  exfalso. now apply (Hd r n t b).
Qed.

(** C2 (as amended).  A line that is not a command is tried as an
    expression, then as a statement list, then as a declaration, then
    scanned, and the first interpretation that succeeds is the one
    spliced and run: the expression whenever it parses; the statement
    list when the expression does not parse; the declaration when
    neither parses and the input parses as exactly one function
    declaration; the token scan in every other case, that is when the
    declaration does not parse or parses as something else than one
    function declaration. *)
Theorem Eval_priority (E : Env) (in_ : string) (s : Session) :
  isCommand in_ = false ->
  (forall e, ParseExpr E in_ = Some e ->
     Eval E in_ s
     = Eval_run E (Eval_fix E (appendStatements [printCall [e]]
                                                (checkpointed E s))))
  /\ (forall f r n t stmts,
        ParseExpr E in_ = None ->
        ParseFile E (stmtSrc in_) = Some f ->
        Lookup (Scope f) "F" = Some (FuncDecl r n t (Block stmts)) ->
        Eval E in_ s
        = Eval_run E (Eval_fix E (appendStatements
                                    (withPrintLastValues stmts)
                                    (checkpointed E s))))
  /\ (forall f r n t b,
        ParseExpr E in_ = None ->
        ParseFile E (stmtSrc in_) = None ->
        ParseFile E (funcSrc in_) = Some f ->
        Decls f = [FuncDecl r n t b] ->
        Eval E in_ s
        = Eval_run E (Eval_fix E
            (setDecls (removeFunc n (Decls (file (checkpointed E s)))
                       ++ [FuncDecl r n t b])
                      (checkpointed E s))))
  /\ (ParseExpr E in_ = None ->
      ParseFile E (stmtSrc in_) = None ->
      (ParseFile E (funcSrc in_) = None
       \/ exists f, ParseFile E (funcSrc in_) = Some f
                    /\ forall r n t b, Decls f <> [FuncDecl r n t b]) ->
      Eval E in_ s
      = match parseTokens E in_ with
        | Some err => Returns (printErr err (checkpointed E s)) (Some err)
        | None => Returns (checkpointed E s) (Some ErrContinue)
        end).
Proof.
  intro Hcmd. rewrite (Eval_unfold E in_ s Hcmd).
  repeat split.
  - intros e He. now rewrite (Eval_input_expr E in_ _ e He).
  - intros f r n t stmts He Hf Hl.
    now rewrite (Eval_input_stmt E in_ _ f r n t stmts He Hf Hl).
  - intros f r n t b He Hs Hf Hd.
    now rewrite (Eval_input_func E in_ _ f r n t b He Hs Hf Hd).
  - intros He Hs Hf. rewrite (Eval_input_scan E in_ _ He Hs Hf).
    now destruct (parseTokens E in_).
Qed.

Lemma Eval_priority_witness :
  Eval (Sample.env Sample.succeeds) Sample.inF Sample.session0
  = Returns (setDecls (Decls Sample.initialFile ++ [Sample.declF])
                      (storeCode Sample.session0))
            None.
Proof.
  exact (proj1 (proj2 (proj2
           (Eval_priority (Sample.env Sample.succeeds) Sample.inF
                          Sample.session0 eq_refl)))
           (Sample.fileOf "f" Sample.declF) None "f" "() int"
           (Block [OtherStmt "return 1"])
           eq_refl eq_refl eq_refl eq_refl).
Defined.

(** C2, as worded, fails: [import "fmt"] parses neither as an expression
    nor as a statement list, parses as a top-level declaration without
    error, and still [Eval] does not commit to it: it goes on to the
    token scan and asks for more input. *)
Lemma Eval_import_decl_not_committed :
  ParseExpr (Sample.env Sample.succeeds) Sample.inImport = None
  /\ ParseFile (Sample.env Sample.succeeds) (stmtSrc Sample.inImport) = None
  /\ ParseFile (Sample.env Sample.succeeds) (funcSrc Sample.inImport)
     = Some (mkFile [Sample.importFmtDecl] [])
  /\ Eval (Sample.env Sample.succeeds) Sample.inImport Sample.session0
     = Returns (storeCode Sample.session0) (Some ErrContinue).
Proof. repeat split. Qed.

(* ------------------------------------------------------------------ *)
(** *** The token scan *)

Lemma parseTokensLoop_illegal (toks : list (Token * string)) (lit : string) :
  scansIllegal toks lit ->
  parseTokensLoop toks = Some (ErrInvalidToken lit).
Proof.
  intros (pre & post & -> & Hpre).
  induction Hpre as [| [tok l] pre (n & Hn) _ IH]; simpl; [reflexivity |].
  simpl in Hn. subst tok. exact IH.
Qed.

Lemma parseTokensLoop_error (toks : list (Token * string)) (e : error) :
  parseTokensLoop toks = Some e ->
  exists lit, e = ErrInvalidToken lit /\ scansIllegal toks lit.
Proof.
  induction toks as [| [tok l] rest IH]; simpl; intro H; [discriminate |].
  destruct tok as [| | n].
  - discriminate.
  - inversion H; subst. exists l. split; [reflexivity |].
    exists [], rest. split; [reflexivity | constructor].
  - destruct (IH H) as (lit & -> & pre & post & -> & Hpre).
    exists lit. split; [reflexivity |].
    exists ((OtherToken n, l) :: pre), post. split; [reflexivity |].
    constructor; [now exists n | assumption].
Qed.

(** C9 (as amended).  When the input parses neither as an expression,
    nor as a statement list, nor as a declaration, the scan decides.  If
    the scanner meets an illegal token before the end of the input,
    [Eval] fails with the invalid-token error, which it also writes to
    the error stream; otherwise it returns the continue sentinel.
    Either way nothing is spliced: the program is the one the clearing
    pass at the head of [Eval] left, of which the checkpoint was taken
    (in the incomplete case the session is exactly the checkpointed
    one). *)
Theorem Eval_token_scan (E : Env) (in_ : string) (s : Session) :
  isCommand in_ = false ->
  ParseExpr E in_ = None ->
  ParseFile E (stmtSrc in_) = None ->
  ParseFile E (funcSrc in_) = None ->
  (forall lit, scansIllegal (Scan E in_) lit ->
     Eval E in_ s
     = Returns (printErr (ErrInvalidToken lit) (checkpointed E s))
               (Some (ErrInvalidToken lit)))
  /\ ((forall lit, ~ scansIllegal (Scan E in_) lit) ->
      Eval E in_ s = Returns (checkpointed E s) (Some ErrContinue))
  /\ (forall s' err, Eval E in_ s = Returns s' err ->
        program s' = clearQuickFix E (program s)
        /\ (err = Some ErrContinue
            \/ exists lit, err = Some (ErrInvalidToken lit)
                           /\ stderr s' = stderr s ++ [ErrInvalidToken lit])).
Proof.
  intros Hcmd He Hs Hf.
  rewrite (Eval_unfold E in_ s Hcmd),
    (Eval_input_scan E in_ _ He Hs (or_introl Hf)).
  destruct (checkpointed_program E s) as (Hprog & _ & _).
  repeat split.
  - intros lit Hlit. unfold parseTokens.
    now rewrite (parseTokensLoop_illegal _ _ Hlit).
  - intro Hnone. unfold parseTokens.
    destruct (parseTokensLoop (Scan E in_)) as [e |] eqn:Hloop;
      [| reflexivity].
    destruct (parseTokensLoop_error _ _ Hloop) as (lit & _ & Hlit).
    exfalso. now apply (Hnone lit).
  - destruct (parseTokens E in_); inversion H; subst; exact Hprog.
  - unfold parseTokens in H.
    destruct (parseTokensLoop (Scan E in_)) as [e |] eqn:Hloop;
      inversion H; subst; [| now left].
    destruct (parseTokensLoop_error _ _ Hloop) as (lit & -> & _).
    right. exists lit. split; reflexivity.
Qed.

Lemma Eval_token_scan_witness :
  Eval (Sample.env Sample.succeeds) "if true {" Sample.session0
  = Returns (storeCode Sample.session0) (Some ErrContinue).
Proof.
  apply (proj1 (proj2
           (Eval_token_scan (Sample.env Sample.succeeds) "if true {"
                            Sample.session0 eq_refl eq_refl eq_refl eq_refl))).
  intros lit (pre & post & Heq & Hpre).
  vm_compute in Heq.
  destruct pre as [| p1 [| p2 [| p3 [| p4 pre]]]];
    try discriminate Heq.
  inversion Heq; subst.
  inversion Hpre as [| x l Hx Hl]; subst.
  inversion Hl as [| x' l' Hx' Hl']; subst.
  inversion Hl' as [| x'' l'' Hx'' Hl'']; subst.
  inversion Hl'' as [| y m (n & Hy) Hm]; subst.
  discriminate Hy.
Defined.

(** C9, as worded, fails: [Eval] runs the clearing pass before it
    classifies, so an incomplete input can leave the program changed.
    Here the entry point holds [_ = x], the pass drops it, and the
    input [if true {] comes back with the continue sentinel and an
    empty entry point. *)
Lemma Eval_incomplete_after_clearing :
  ParseExpr Sample.clearingEnv "if true {" = None
  /\ ParseFile Sample.clearingEnv (stmtSrc "if true {") = None
  /\ ParseFile Sample.clearingEnv (funcSrc "if true {") = None
  /\ exists s',
      Eval Sample.clearingEnv "if true {" Sample.sessionBlank
      = Returns s' (Some ErrContinue)
      /\ mainBody Sample.sessionBlank
         = [AssignStmt [Ident "_"] "=" [Ident "x"]]
      /\ mainBody s' = []
      /\ program s' <> program Sample.sessionBlank.
Proof.
  repeat split. eexists. repeat split.
  vm_compute. intro H. discriminate H.
Qed.

(* ------------------------------------------------------------------ *)
(** *** Splicing a statement list: [evalStmt] *)

Lemma withPrintLastValues_assign (init : list Stmt) (lhs : list Expr)
      (tok : string) (rhs : list Expr) :
  withPrintLastValues (init ++ [AssignStmt lhs tok rhs])
  = init ++ [AssignStmt lhs tok rhs]
    ++ match filter (fun v => negb (isNamedIdent v "_")) lhs with
       | [] => []
       | vs => [printCall vs]
       end.
Proof.
  unfold withPrintLastValues.
  rewrite map_app. simpl map. rewrite last_last.
  destruct (filter (fun v => negb (isNamedIdent v "_")) lhs) as [| v vs];
    simpl.
  - reflexivity.
  - now rewrite <- app_assoc.
Qed.

(** C4.  When the input is taken as a statement list whose last
    statement is an assignment, [evalStmt] appends the parsed statements
    to the entry point, followed by one call of the print helper whose
    arguments are the left-hand sides of that assignment other than the
    identifier [_], in their order; when every left-hand side is [_],
    no call is appended. *)
Theorem evalStmt_prints_assigned (E : Env) (in_ : string) (s : Session)
        (f : File) (r : option string) (n t : string) (init : list Stmt)
        (lhs : list Expr) (tok : string) (rhs : list Expr) :
  ParseExpr E in_ = None ->
  ParseFile E (stmtSrc in_) = Some f ->
  Lookup (Scope f) "F"
  = Some (FuncDecl r n t (Block (init ++ [AssignStmt lhs tok rhs]))) ->
  let vs := filter (fun v => negb (isNamedIdent v "_")) lhs in
  let printed := match vs with [] => [] | _ => [printCall vs] end in
  exists s',
    evalStmt E in_ s = Returns s' None
    /\ Eval_input E in_ s = Returns s' None
    /\ mainBody s' = mainBody s ++ init ++ [AssignStmt lhs tok rhs] ++ printed
    /\ Decls (file s') = Decls (file s)
    /\ (forall v, In v vs <-> In v lhs /\ isNamedIdent v "_" = false)
    /\ (forallb (fun v => isNamedIdent v "_") lhs = true -> printed = []).
Proof.
  intros He Hf Hl vs printed.
  exists (appendStatements
            (withPrintLastValues (init ++ [AssignStmt lhs tok rhs])) s).
  split; [| split; [| split; [| split; [| split]]]].
  - unfold evalStmt. fold (stmtSrc in_). now rewrite Hf, Hl.
  - now apply Eval_input_stmt with f r n t.
  - cbn [appendStatements setMainBody mainBody].
    rewrite withPrintLastValues_assign. unfold printed, vs.
    now destruct (filter (fun v => negb (isNamedIdent v "_")) lhs).
  - reflexivity.
  - intro v. unfold vs. rewrite filter_In.
    now rewrite negb_true_iff.
  - intro Hall. unfold printed, vs.
    replace (filter (fun v => negb (isNamedIdent v "_")) lhs) with (@nil Expr);
      [reflexivity |].
    clear -Hall. induction lhs as [| v rest IH]; [reflexivity |].
    simpl in Hall. apply andb_true_iff in Hall. destruct Hall as [Hv Hrest].
    cbn [filter]. rewrite Hv. simpl. now apply IH.
Qed.

Lemma evalStmt_prints_assigned_witness :
  exists s',
    evalStmt (Sample.env Sample.succeeds) "x, _ := foo()" Sample.session0
    = Returns s' None
    /\ Eval_input (Sample.env Sample.succeeds) "x, _ := foo()" Sample.session0
       = Returns s' None
    /\ mainBody s'
       = [AssignStmt [Ident "x"; Ident "_"] ":=" [Sample.callFoo];
          printCall [Ident "x"]]
    /\ Decls (file s') = Decls Sample.initialFile
    /\ (forall v, In v [Ident "x"]
                  <-> In v [Ident "x"; Ident "_"]
                      /\ isNamedIdent v "_" = false)
    /\ (forallb (fun v => isNamedIdent v "_") [Ident "x"; Ident "_"] = true ->
        [printCall [Ident "x"]] = []).
Proof.
  exact (evalStmt_prints_assigned
           (Sample.env Sample.succeeds) "x, _ := foo()" Sample.session0
           (Sample.wrapF [AssignStmt [Ident "x"; Ident "_"] ":="
                                     [Sample.callFoo]])
           None "F" "()" [] [Ident "x"; Ident "_"] ":=" [Sample.callFoo]
           eq_refl eq_refl eq_refl).
Defined.

(* ------------------------------------------------------------------ *)
(** *** Splicing a declaration: [evalFunc] *)

Lemma filter_removeFunc (n : string) (decls : list Decl) :
  filter (isFuncNamed n) (removeFunc n decls)
  = tl (filter (isFuncNamed n) decls).
Proof.
  induction decls as [| d rest IH]; [reflexivity |].
  cbn [removeFunc filter].
  destruct (isFuncNamed n d) eqn:Hd; [reflexivity |].
  cbn [filter]. now rewrite Hd.
Qed.

Lemma removeFunc_first (n : string) (pre post : list Decl) (old : Decl) :
  filter (isFuncNamed n) pre = [] ->
  isFuncNamed n old = true ->
  removeFunc n (pre ++ old :: post) = pre ++ post.
Proof.
  intros Hpre Hold.
  induction pre as [| d pre IH]; cbn [app removeFunc].
  - now rewrite Hold.
  - cbn [filter] in Hpre. destruct (isFuncNamed n d); [discriminate |].
    now rewrite IH.
Qed.

Lemma removeFunc_absent (n : string) (decls : list Decl) :
  filter (isFuncNamed n) decls = [] -> removeFunc n decls = decls.
Proof.
  induction decls as [| d rest IH]; [reflexivity |].
  cbn [removeFunc filter]. destruct (isFuncNamed n d); [discriminate |].
  intro H. now rewrite IH.
Qed.

Lemma evalFunc_single (E : Env) (in_ : string) (s : Session) (f : File)
      (r : option string) (n t : string) (b : Body) :
  ParseFile E (funcSrc in_) = Some f ->
  Decls f = [FuncDecl r n t b] ->
  evalFunc E in_ s
  = (setDecls (removeFunc n (Decls (file s)) ++ [FuncDecl r n t b]) s, None).
Proof.
  intros Hf Hd. unfold evalFunc. fold (funcSrc in_). now rewrite Hf, Hd.
Qed.

(** C3 (as amended).  In a program that declares at most one function
    named [n], submitting a declaration of [n] leaves exactly one
    declaration named [n], the new one with its body.  The earlier
    declaration of [n], if any, is removed from where it stood and the
    new one is appended at the end of the declaration sequence; the
    other declarations keep their order, and the entry point's
    statements are untouched. *)
Theorem evalFunc_redefines (E : Env) (in_ : string) (s : Session) (f : File)
        (r : option string) (n t : string) (b : Body) :
  ParseFile E (funcSrc in_) = Some f ->
  Decls f = [FuncDecl r n t b] ->
  length (filter (isFuncNamed n) (Decls (file s))) <= 1 ->
  exists s',
    evalFunc E in_ s = (s', None)
    /\ filter (isFuncNamed n) (Decls (file s')) = [FuncDecl r n t b]
    /\ Decls (file s') = removeFunc n (Decls (file s)) ++ [FuncDecl r n t b]
    /\ (forall pre old post,
          Decls (file s) = pre ++ old :: post ->
          isFuncNamed n old = true ->
          Decls (file s') = pre ++ post ++ [FuncDecl r n t b])
    /\ (filter (isFuncNamed n) (Decls (file s)) = [] ->
        Decls (file s') = Decls (file s) ++ [FuncDecl r n t b])
    /\ mainBody s' = mainBody s.
Proof.
  intros Hf Hd Hcount.
  exists (setDecls (removeFunc n (Decls (file s)) ++ [FuncDecl r n t b]) s).
  split; [now apply evalFunc_single with f |].
  cbn [setDecls file Decls mainBody].
  split; [| split; [reflexivity | split; [| split; [| reflexivity]]]].
  - rewrite filter_app, filter_removeFunc.
    cbn [filter isFuncNamed]. rewrite String.eqb_refl.
    destruct (filter (isFuncNamed n) (Decls (file s))) as [| d [| d' l]];
      try reflexivity.
    simpl in Hcount. lia.
  - intros pre old post Hshape Hold. rewrite Hshape in *.
    rewrite removeFunc_first; [now rewrite app_assoc | | assumption].
    rewrite filter_app in Hcount. cbn [filter] in Hcount.
    rewrite Hold in Hcount. rewrite length_app in Hcount.
    cbn [length] in Hcount.
    destruct (filter (isFuncNamed n) pre); [reflexivity |].
    cbn [length] in Hcount. lia.
  - intro Hnone. now rewrite removeFunc_absent.
Qed.

Lemma evalFunc_redefines_witness :
  exists s',
    evalFunc (Sample.env Sample.succeeds) Sample.inF' Sample.sessionFG
    = (s', None)
    /\ filter (isFuncNamed "f") (Decls (file s')) = [Sample.declF']
    /\ Decls (file s')
       = removeFunc "f" (Decls (file Sample.sessionFG)) ++ [Sample.declF']
    /\ (forall pre old post,
          Decls (file Sample.sessionFG) = pre ++ old :: post ->
          isFuncNamed "f" old = true ->
          Decls (file s') = pre ++ post ++ [Sample.declF'])
    /\ (filter (isFuncNamed "f") (Decls (file Sample.sessionFG)) = [] ->
        Decls (file s') = Decls (file Sample.sessionFG) ++ [Sample.declF'])
    /\ mainBody s' = mainBody Sample.sessionFG.
Proof.
  apply (evalFunc_redefines
           (Sample.env Sample.succeeds) Sample.inF' Sample.sessionFG
           (Sample.fileOf "f" Sample.declF') None "f" "() int"
           (Block [OtherStmt "return 2"])).
  - reflexivity.
  - reflexivity.
  - vm_compute. lia.
Defined.

(** C3, as worded, fails: after [f] and then [g] were declared,
    declaring [f] again does not overwrite [f] where it stood; the old
    [f] is removed and the new one is appended after [g]. *)
Lemma evalFunc_appends_redefinition :
  exists s2 s3,
    evalAll (Sample.env Sample.succeeds) [Sample.inF; Sample.inG]
            Sample.session0 = Some s2
    /\ Eval (Sample.env Sample.succeeds) Sample.inF' s2 = Returns s3 None
    /\ Decls (file s2)
       = Decls Sample.initialFile ++ [Sample.declF; Sample.declG]
    /\ Decls (file s3)
       = Decls Sample.initialFile ++ [Sample.declG; Sample.declF']
    /\ replaceInPlace "f" Sample.declF' (Decls (file s2))
       = Decls Sample.initialFile ++ [Sample.declF'; Sample.declG]
    /\ Decls (file s3) <> replaceInPlace "f" Sample.declF' (Decls (file s2)).
Proof.
  eexists. eexists.
  split; [reflexivity |]. split; [reflexivity |].
  split; [reflexivity |]. split; [reflexivity |].
  split; [reflexivity |].
  vm_compute. intro H. discriminate H.
Qed.

(* ================================================================== *)
(** ** The import command: [actionImport] *)

Lemma Contains_space_cons (c : ascii) (r : string) :
  Strings.Contains (String c r) " "
  = (Ascii.eqb c " " || Strings.Contains r " ")%bool.
Proof.
  cbn [Strings.Contains String.prefix].
  destruct (ascii_dec " " c) as [<- | Hne].
  - now destruct r.
  - destruct (Ascii.eqb c " ") eqn:Hc.
    + apply Ascii.eqb_eq in Hc. congruence.
    + now destruct r.
Qed.

Lemma isSpace_not_space (c : ascii) :
  Strings.isSpace c = false -> Ascii.eqb c " " = false.
Proof.
  intro H. destruct (Ascii.eqb c " ") eqn:Hc; [| reflexivity].
  apply Ascii.eqb_eq in Hc. subst c. discriminate H.
Qed.

Lemma Contains_space_snoc (cur : string) (c : ascii) :
  Strings.Contains cur " " = false ->
  Strings.isSpace c = false ->
  Strings.Contains (cur ++ String c EmptyString) " " = false.
Proof.
  intros Hcur Hc. apply isSpace_not_space in Hc.
  induction cur as [| d cur IH].
  - change (Strings.Contains (String c EmptyString) " " = false).
    rewrite Contains_space_cons, Hc. reflexivity.
  - change (Strings.Contains (String d (cur ++ String c EmptyString)) " "
            = false).
    rewrite Contains_space_cons in *.
    apply orb_false_iff in Hcur. destruct Hcur as [Hd Hrest].
    rewrite Hd. now apply IH.
Qed.

Lemma isEmpty_snoc (cur : string) (c : ascii) :
  Strings.isEmpty (cur ++ String c EmptyString) = false.
Proof. now destruct cur. Qed.

Lemma fieldsFrom_field (s cur v : string) :
  Strings.Contains cur " " = false ->
  In v (Strings.fieldsFrom cur s) ->
  Strings.Contains v " " = false /\ Strings.isEmpty v = false.
Proof.
  revert cur. induction s as [| c r IH]; intros cur Hcur Hin.
  - cbn [Strings.fieldsFrom] in Hin.
    destruct (Strings.isEmpty cur) eqn:Hempty; [contradiction |].
    destruct Hin as [<- | []]. now split.
  - cbn [Strings.fieldsFrom] in Hin.
    destruct (Strings.isSpace c) eqn:Hc.
    + destruct (Strings.isEmpty cur) eqn:Hempty.
      * now apply (IH EmptyString).
      * destruct Hin as [<- | Hin]; [now split |].
        now apply (IH EmptyString).
    + apply (IH (cur ++ String c EmptyString)%string); [| assumption].
      now apply Contains_space_snoc.
Qed.

Lemma Fields_field (s v : string) :
  In v (Strings.Fields s) ->
  Strings.Contains v " " = false /\ Strings.isEmpty v = false.
Proof. now apply fieldsFrom_field. Qed.

Section ImportFacts.

Variable E : Env.

Lemma actionImportFuel_S (n : nat) (s : Session) (arg : string) :
  actionImportFuel E (S n) s arg
  = if Strings.isEmpty arg then Some (s, Some ErrArgRequired)
    else if Strings.Contains arg " " then
      importEach (actionImportFuel E n) (Strings.Fields arg) s
    else match Import E (Strings.Trim arg dquote) with
         | Some err => Some (s, Some err)
         | None =>
             Some (setFile (AddImport (file s) (Strings.Trim arg dquote)) s,
                   None)
         end.
Proof. reflexivity. Qed.

Lemma actionImportFuel_path (n : nat) (s : Session) (arg : string) :
  Strings.Contains arg " " = false ->
  actionImportFuel E (S n) s arg
  = if Strings.isEmpty arg then Some (s, Some ErrArgRequired)
    else match Import E (Strings.Trim arg dquote) with
         | Some err => Some (s, Some err)
         | None =>
             Some (setFile (AddImport (file s) (Strings.Trim arg dquote)) s,
                   None)
         end.
Proof.
  intro H. rewrite actionImportFuel_S. now rewrite H.
Qed.

Lemma importEach_ext
      (rec1 rec2 : Session -> string -> option (Session * option error))
      (vs : list string) (s : Session) :
  (forall v s', In v vs -> rec1 s' v = rec2 s' v) ->
  importEach rec1 vs s = importEach rec2 vs s.
Proof.
  revert s. induction vs as [| v vs IH]; intros s H; [reflexivity |].
  cbn [importEach].
  destruct (Strings.isEmpty v); [apply IH; intros; apply H; now right |].
  rewrite (H v s (or_introl eq_refl)).
  destruct (rec2 s v) as [[s1 [err |]] |]; try reflexivity.
  apply IH. intros. apply H. now right.
Qed.

(** Two levels of calls are all [actionImport] ever makes. *)
Lemma actionImportFuel_enough (n : nat) (s : Session) (arg : string) :
  actionImportFuel E (2 + n) s arg = actionImportFuel E 2 s arg.
Proof.
  change (2 + n) with (S (S n)).
  rewrite !actionImportFuel_S.
  destruct (Strings.isEmpty arg); [reflexivity |].
  destruct (Strings.Contains arg " "); [| reflexivity].
  apply importEach_ext. intros v s' Hin.
  destruct (Fields_field _ _ Hin) as [Hv _].
  now rewrite !actionImportFuel_path.
Qed.

Lemma importEach_total
      (rec : Session -> string -> option (Session * option error))
      (vs : list string) (s : Session) :
  (forall v s', In v vs -> exists r, rec s' v = Some r) ->
  exists r, importEach rec vs s = Some r.
Proof.
  revert s. induction vs as [| v vs IH]; intros s H.
  - now eexists.
  - cbn [importEach].
    destruct (Strings.isEmpty v); [apply IH; intros; apply H; now right |].
    destruct (H v s (or_introl eq_refl)) as ([s1 [err |]] & ->).
    + now eexists.
    + apply IH. intros. apply H. now right.
Qed.

(** [actionImport] returns on every argument. *)
Lemma actionImport_total (s : Session) (arg : string) :
  exists r, actionImport E s arg = Some r.
Proof.
  unfold actionImport. rewrite actionImportFuel_S.
  destruct (Strings.isEmpty arg); [now eexists |].
  destruct (Strings.Contains arg " ").
  - apply importEach_total. intros v s' Hin.
    destruct (Fields_field _ _ Hin) as [Hv _].
    rewrite actionImportFuel_path by assumption.
    destruct (Strings.isEmpty v); [now eexists |].
    destruct (Import E (Strings.Trim v dquote)); now eexists.
  - destruct (Import E (Strings.Trim arg dquote)); now eexists.
Qed.

End ImportFacts.

Lemma existsb_eqb_count (p : string) (l : list string) :
  existsb (String.eqb p) l = true <-> count_occ string_dec l p >= 1.
Proof.
  rewrite existsb_exists. split.
  - intros (x & Hin & Heq). apply String.eqb_eq in Heq. subst x.
    now apply count_occ_In.
  - intro H. exists p. split; [now apply (count_occ_In string_dec) |].
    apply String.eqb_refl.
Qed.

Lemma setFile_same (s : Session) : setFile (file s) s = s.
Proof. now destruct s. Qed.

Lemma AddImport_present (f : File) (path : string) :
  count_occ string_dec (importPaths (Decls f)) path >= 1 ->
  AddImport f path = f.
Proof.
  intro H. unfold AddImport.
  apply existsb_eqb_count in H. now rewrite H.
Qed.

Lemma AddImport_counts (f : File) (path : string) :
  count_occ string_dec (importPaths (Decls f)) path <= 1 ->
  count_occ string_dec (importPaths (Decls (AddImport f path))) path = 1.
Proof.
  intro Hle. unfold AddImport.
  destruct (existsb (String.eqb path) (importPaths (Decls f))) eqn:Hex.
  - apply existsb_eqb_count in Hex. lia.
  - assert (Hzero : count_occ string_dec (importPaths (Decls f)) path = 0).
    { destruct (count_occ string_dec (importPaths (Decls f)) path) eqn:Hc;
        [reflexivity |].
      assert (Hge : existsb (String.eqb path) (importPaths (Decls f)) = true)
        by (apply existsb_eqb_count; lia).
      congruence. }
    cbn [Decls importPaths flat_map specPaths app].
    change (flat_map _ (Decls f)) with (importPaths (Decls f)).
    rewrite count_occ_cons_eq by reflexivity. now rewrite Hzero.
Qed.

(** C7.  Importing an importable path twice leaves exactly one import
    of it (the program holding at most one before): the first call
    inserts it unless it is there, the second call finds it and changes
    nothing.  The statements of the entry point are not touched. *)
Theorem actionImport_twice (E : Env) (s : Session) (arg : string) :
  Strings.isEmpty arg = false ->
  Strings.Contains arg " " = false ->
  Import E (Strings.Trim arg dquote) = None ->
  count_occ string_dec (importPaths (Decls (file s)))
            (Strings.Trim arg dquote) <= 1 ->
  exists s1,
    actionImport E s arg = Some (s1, None)
    /\ actionImport E s1 arg = Some (s1, None)
    /\ count_occ string_dec (importPaths (Decls (file s1)))
                 (Strings.Trim arg dquote) = 1
    /\ mainBody s1 = mainBody s.
Proof.
  intros Hne Hsp Himp Hle.
  exists (setFile (AddImport (file s) (Strings.Trim arg dquote)) s).
  unfold actionImport.
  rewrite !actionImportFuel_path by assumption.
  rewrite Hne, Himp.
  pose proof (AddImport_counts (file s) _ Hle) as Hone.
  repeat split.
  - cbn [file setFile].
    rewrite (AddImport_present (AddImport (file s) (Strings.Trim arg dquote)))
      by lia.
    now rewrite <- (setFile_same (setFile _ s)) at 2.
  - exact Hone.
Qed.

Lemma actionImport_twice_witness :
  exists s1,
    actionImport (Sample.env Sample.succeeds) Sample.session0 "os"
    = Some (s1, None)
    /\ actionImport (Sample.env Sample.succeeds) s1 "os" = Some (s1, None)
    /\ count_occ string_dec (importPaths (Decls (file s1)))
                 (Strings.Trim "os" dquote) = 1
    /\ mainBody s1 = mainBody Sample.session0.
Proof.
  apply (actionImport_twice (Sample.env Sample.succeeds) Sample.session0 "os").
  - reflexivity.
  - reflexivity.
  - reflexivity.
  - vm_compute. lia.
Defined.

(** C8.  When the importer does not resolve the path, [actionImport]
    returns an error and the session, hence the imports, the
    declarations and the entry point's statements, is the one it was
    given. *)
Theorem actionImport_unresolved (E : Env) (s : Session) (arg : string)
        (err : error) :
  Strings.Contains arg " " = false ->
  Import E (Strings.Trim arg dquote) = Some err ->
  exists e,
    actionImport E s arg = Some (s, Some e)
    /\ (Strings.isEmpty arg = false -> e = err).
Proof.
  intros Hsp Himp. unfold actionImport.
  rewrite actionImportFuel_path by assumption. rewrite Himp.
  destruct (Strings.isEmpty arg).
  - exists ErrArgRequired. split; [reflexivity | discriminate].
  - exists err. split; reflexivity.
Qed.

Lemma actionImport_unresolved_witness :
  exists e,
    actionImport (Sample.env Sample.succeeds) Sample.session0 "no/such/pkg"
    = Some (Sample.session0, Some e)
    /\ (Strings.isEmpty "no/such/pkg" = false ->
        e = ErrOther "cannot find package").
Proof.
  apply (actionImport_unresolved (Sample.env Sample.succeeds)
                                 Sample.session0 "no/such/pkg").
  - reflexivity.
  - reflexivity.
Defined.

(* ================================================================== *)
(** ** The type command: [actionType] *)

Lemma actionType_body_frame (E : Env) (s : Session) (in_ : string) :
  file (fst (actionType_body E s in_)) = file s
  /\ lastStmts (fst (actionType_body E s in_)) = lastStmts s
  /\ lastDecls (fst (actionType_body E s in_)) = lastDecls s.
Proof.
  unfold actionType_body, evalExpr.
  destruct (ParseExpr E in_) as [e |]; [| now repeat split].
  destruct (TypeOf E _ e); now repeat split.
Qed.

Lemma restoreCode_program (s : Session) :
  NoDup (funcNames (lastDecls s)) ->
  Decls (file s) = lastDecls s ->
  program (restoreCode s) = (file s, lastStmts s).
Proof.
  intros Hnd Hd. unfold restoreCode, program. cbn.
  rewrite Hd, restoreDecls_same by assumption.
  rewrite <- Hd. now destruct (file s).
Qed.

(** C10 (as amended).  The type query leaves the program as its
    clearing pass left it: whatever the expression, and whether the
    query succeeds or fails, the statements of the entry point and the
    declarations after the command are those of the snapshot it took
    after that pass (hence those before the command where the pass has
    nothing to clear), the functions being uniquely named as the data
    model has it.  With an empty argument nothing is touched at all. *)
Theorem actionType_restores (E : Env) (s : Session) (in_ : string) :
  NoDup (funcNames (Decls (fst (clearQuickFix E (program s))))) ->
  program (fst (actionType E s in_))
  = (if Strings.isEmpty in_ then program s else clearQuickFix E (program s))
  /\ (clearQuickFix E (program s) = program s ->
      mainBody (fst (actionType E s in_)) = mainBody s
      /\ Decls (file (fst (actionType E s in_))) = Decls (file s)).
Proof.
  intro Hnd.
  assert (Hprog : program (fst (actionType E s in_))
                  = if Strings.isEmpty in_ then program s
                    else clearQuickFix E (program s)).
  { unfold actionType. destruct (Strings.isEmpty in_); [reflexivity |].
    destruct (actionType_body E (storeCode (withProgram (clearQuickFix E) s))
                              in_) as [s2 err] eqn:Hbody.
    pose proof (actionType_body_frame
                  E (storeCode (withProgram (clearQuickFix E) s)) in_)
      as (Hf & Hs & Hd).
    rewrite Hbody in Hf, Hs, Hd. cbn [fst] in *.
    rewrite restoreCode_program.
    - rewrite Hf, Hs. cbn.
      now destruct (clearQuickFix E (program s)).
    - rewrite Hd. exact Hnd.
    - now rewrite Hf, Hd. }
  split; [exact Hprog |].
  intro Hclear. rewrite Hclear in Hprog.
  assert (Hsame : program (fst (actionType E s in_)) = program s)
    by (now destruct (Strings.isEmpty in_)).
  unfold program in Hsame. inversion Hsame as [[Hfile Hbody]].
  now rewrite Hfile.
Qed.

Lemma actionType_restores_witness :
  program (fst (actionType (Sample.env Sample.succeeds) Sample.sessionFG "x"))
  = program Sample.sessionFG
  /\ snd (actionType (Sample.env Sample.succeeds) Sample.sessionFG "x") = None
  /\ stdout (fst (actionType (Sample.env Sample.succeeds)
                             Sample.sessionFG "x")) = ["int"].
Proof.
  split; [| split; reflexivity].
  apply (actionType_restores (Sample.env Sample.succeeds)
                             Sample.sessionFG "x").
  vm_compute. repeat constructor; simpl; intuition discriminate.
Defined.

(** C10, as worded, fails: the command runs the clearing pass before it
    takes its snapshot, and what the pass drops is not brought back.
    Here the entry point holds [_ = x]; the query on [x] succeeds and
    leaves the entry point empty. *)
Lemma actionType_after_clearing :
  snd (actionType Sample.clearingEnv Sample.sessionBlank "x") = None
  /\ mainBody Sample.sessionBlank
     = [AssignStmt [Ident "_"] "=" [Ident "x"]]
  /\ mainBody (fst (actionType Sample.clearingEnv Sample.sessionBlank "x"))
     = []
  /\ mainBody (fst (actionType Sample.clearingEnv Sample.sessionBlank "x"))
     <> mainBody Sample.sessionBlank.
Proof.
  repeat split. vm_compute. intro H. discriminate H.
Qed.

(* ================================================================== *)
(** ** Further properties of splicing and rollback *)

Lemma funcNames_app (a b : list Decl) :
  funcNames (a ++ b) = funcNames a ++ funcNames b.
Proof. apply flat_map_app. Qed.

Lemma filter_isFuncNamed_absent (n : string) (l : list Decl) :
  ~ In n (funcNames l) -> filter (isFuncNamed n) l = [].
Proof.
  induction l as [| d rest IH]; [reflexivity |].
  intro Hnot. cbn [filter].
  destruct d as [tok specs | r m t b]; cbn [isFuncNamed].
  - apply IH. exact Hnot.
  - destruct (String.eqb m n) eqn:Hm.
    + apply String.eqb_eq in Hm. subst m. exfalso. apply Hnot. now left.
    + apply IH. intro Hin. apply Hnot. now right.
Qed.

Lemma NoDup_funcNames_split (pre post : list Decl) (r : option string)
      (n t : string) (b : Body) :
  NoDup (funcNames (pre ++ FuncDecl r n t b :: post)) ->
  ~ In n (funcNames pre) /\ ~ In n (funcNames post)
  /\ NoDup (funcNames (pre ++ post)).
Proof.
  rewrite funcNames_app. cbn [funcNames flat_map app].
  change (flat_map _ post) with (funcNames post).
  intro Hnd. pose proof (NoDup_remove_1 _ _ _ Hnd) as Hnd'.
  pose proof (NoDup_remove_2 _ _ _ Hnd) as Hnot.
  rewrite funcNames_app. repeat split; try assumption.
  - intro Hin. apply Hnot. apply in_or_app. now left.
  - intro Hin. apply Hnot. apply in_or_app. now right.
Qed.

Lemma restoredDecl_member (decls : list Decl) (d : Decl) :
  NoDup (funcNames decls) -> In d decls -> restoredDecl decls d = [d].
Proof.
  intros Hnd Hin. destruct d as [tok specs | r n t b]; [reflexivity |].
  cbn [restoredDecl]. destruct (String.eqb n "main"); [reflexivity |].
  now rewrite (find_unique_func decls r n t b Hnd Hin).
Qed.

Lemma restoreDecls_members (last decls : list Decl) :
  NoDup (funcNames last) ->
  (forall d, In d decls -> In d last) ->
  restoreDecls last decls = decls.
Proof.
  intros Hnd Hsub. rewrite restoreDecls_restoredDecl.
  apply flat_map_fixed. intros d Hin.
  apply restoredDecl_member; auto.
Qed.

(** X1.  Statements appended after a checkpoint are undone by [restoreCode]:
    store, append, restore is store. *)
Theorem restoreCode_undoes_append (s : Session) (stmts : list Stmt) :
  NoDup (funcNames (Decls (file s))) ->
  restoreCode (appendStatements stmts (storeCode s)) = storeCode s.
Proof.
  intro Hnd. destruct s as [[decls scope] body st last auto out err].
  unfold restoreCode, appendStatements, storeCode, setDecls, setMainBody.
  cbn in *. now rewrite restoreDecls_same.
Qed.

Lemma restoreCode_undoes_append_witness :
  restoreCode (appendStatements [printCall [BasicLit "1"]]
                                (storeCode Sample.sessionFG))
  = storeCode Sample.sessionFG.
Proof.
  apply (restoreCode_undoes_append Sample.sessionFG).
  vm_compute. repeat constructor; simpl; intuition discriminate.
Defined.

(** X2.  Rolling back the redefinition of a function brings its old
    declaration back, but at the end of the sequence, where the
    redefinition stood: the declarations after it have moved up. *)
Theorem restoreCode_after_redefinition
        (E : Env) (in_ : string) (s : Session) (f : File)
        (r ro : option string) (n t to : string) (b bo : Body)
        (pre post : list Decl) :
  ParseFile E (funcSrc in_) = Some f ->
  Decls f = [FuncDecl r n t b] ->
  n <> "main" ->
  Decls (file s) = pre ++ FuncDecl ro n to bo :: post ->
  NoDup (funcNames (Decls (file s))) ->
  Decls (file (restoreCode (fst (evalFunc E in_ (storeCode s)))))
  = pre ++ post ++ [FuncDecl ro n to bo]
  /\ mainBody (restoreCode (fst (evalFunc E in_ (storeCode s))))
     = mainBody s.
Proof.
  intros Hf Hd Hmain Hshape Hnd.
  rewrite (evalFunc_single E in_ (storeCode s) f r n t b Hf Hd).
  cbn [fst]. split; [| reflexivity].
  unfold restoreCode. cbn. rewrite Hshape in *.
  destruct (NoDup_funcNames_split _ _ _ _ _ _ Hnd) as (Hpre & Hpost & _).
  rewrite removeFunc_first;
    [| now apply filter_isFuncNamed_absent | apply String.eqb_refl].
  rewrite app_assoc, restoreDecls_app. f_equal.
  - apply restoreDecls_members; [assumption |].
    intros d Hin. apply in_app_or in Hin. apply in_or_app.
    destruct Hin; [now left | right; now right].
  - cbn [restoreDecls].
    destruct (String.eqb n "main") eqn:Hn;
      [apply String.eqb_eq in Hn; contradiction |].
    cbn [negb].
    rewrite (find_unique_func _ ro n to bo Hnd); [reflexivity |].
    apply in_or_app. right. now left.
Qed.

Lemma restoreCode_after_redefinition_witness :
  Decls (file (restoreCode
                 (fst (evalFunc (Sample.env (Sample.exits 2)) Sample.inF'
                                (storeCode Sample.sessionFG)))))
  = [Sample.importFmtDecl; Sample.printerDecl; Sample.mainDecl]
      ++ [Sample.declG] ++ [Sample.declF]
  /\ mainBody (restoreCode
                 (fst (evalFunc (Sample.env (Sample.exits 2)) Sample.inF'
                                (storeCode Sample.sessionFG))))
     = mainBody Sample.sessionFG.
Proof.
  apply (restoreCode_after_redefinition
           (Sample.env (Sample.exits 2)) Sample.inF' Sample.sessionFG
           (Sample.fileOf "f" Sample.declF') None None "f" "() int" "() int"
           (Block [OtherStmt "return 2"]) (Block [OtherStmt "return 1"])
           [Sample.importFmtDecl; Sample.printerDecl; Sample.mainDecl]
           [Sample.declG]).
  - reflexivity.
  - reflexivity.
  - discriminate.
  - reflexivity.
  - vm_compute. repeat constructor; simpl; intuition discriminate.
Defined.

(** X3.  Unless the run ends with exit status 2, [Eval] leaves what it
    spliced: the session it returns is the one that was run, and the
    error is nil for a run that succeeded and [ErrCmdRun] for any
    failure. *)
Theorem Eval_keeps_input_unless_status2
        (E : Env) (in_ : string) (s s1 : Session) :
  isCommand in_ = false ->
  Eval_input E in_ (checkpointed E s) = Returns s1 None ->
  Run E (program (Eval_fix E s1)) <> RunExitError (Some 2%Z) ->
  Eval E in_ s
  = Returns (Eval_fix E s1)
            (match Run E (program (Eval_fix E s1)) with
             | RunNil => None
             | _ => Some ErrCmdRun
             end).
Proof.
  intros Hcmd Hin Hrun.
  rewrite (Eval_unfold E in_ s Hcmd), Hin. unfold Eval_run.
  destruct (Run E (program (Eval_fix E s1))) as [| [st |] |];
    try reflexivity.
  destruct (Z.eqb st 2) eqn:Hst; [| reflexivity].
  apply Z.eqb_eq in Hst. subst st. now elim Hrun.
Qed.

Lemma Eval_keeps_input_unless_status2_witness :
  Eval (Sample.env Sample.succeeds) "1" Sample.session0
  = Returns (appendStatements [printCall [BasicLit "1"]]
                              (storeCode Sample.session0))
            None.
Proof.
  apply (Eval_keeps_input_unless_status2
           (Sample.env Sample.succeeds) "1" Sample.session0
           (appendStatements [printCall [BasicLit "1"]]
                             (storeCode Sample.session0))).
  - reflexivity.
  - reflexivity.
  - discriminate.
Defined.

Lemma funcNames_restoreDecls (last decls : list Decl) :
  funcNames (restoreDecls last decls)
  = filter (fun n => (String.eqb n "main"
                      || match find (isFuncNamed n) last with
                         | Some _ => true
                         | None => false
                         end)%bool)
           (funcNames decls).
Proof.
  induction decls as [| d rest IH]; [reflexivity |].
  destruct d as [tok specs | r n t b]; cbn [restoreDecls].
  - exact IH.
  - cbn [funcNames flat_map app filter].
    change (flat_map _ rest) with (funcNames rest).
    destruct (String.eqb n "main") eqn:Hn; cbn [negb orb].
    + cbn [funcNames flat_map app].
      change (flat_map _ (restoreDecls last rest))
        with (funcNames (restoreDecls last rest)).
      now rewrite IH.
    + destruct (find (isFuncNamed n) last) as [ld |] eqn:Hfind;
        [| exact IH].
      destruct (find_isFuncNamed _ _ _ Hfind) as [_ (r' & t' & b' & ->)].
      cbn [funcNames flat_map app].
      change (flat_map _ (restoreDecls last rest))
        with (funcNames (restoreDecls last rest)).
      now rewrite IH.
Qed.

Lemma filter_main_restoreDecls (last decls : list Decl) :
  filter (isFuncNamed "main") (restoreDecls last decls)
  = filter (isFuncNamed "main") decls.
Proof.
  induction decls as [| d rest IH]; [reflexivity |].
  destruct d as [tok specs | r n t b]; cbn [restoreDecls filter isFuncNamed].
  - exact IH.
  - destruct (String.eqb n "main") eqn:Hn; cbn [negb].
    + cbn [filter isFuncNamed]. rewrite Hn. now rewrite IH.
    + destruct (find (isFuncNamed n) last) as [ld |] eqn:Hfind;
        [| exact IH].
      destruct (find_isFuncNamed _ _ _ Hfind) as [_ (r' & t' & b' & ->)].
      cbn [filter isFuncNamed]. rewrite Hn. exact IH.
Qed.

(** X6.  [restoreCode] never brings in a function that is not currently
    declared: the function names after it are those current names that
    are [main] or known to the checkpoint, in their order.  So unique
    names stay unique, and the functions named [main] are exactly the
    current ones. *)
Theorem restoreCode_keeps_names (s : Session) :
  funcNames (Decls (file (restoreCode s)))
  = filter (fun n => (String.eqb n "main"
                      || match find (isFuncNamed n) (lastDecls s) with
                         | Some _ => true
                         | None => false
                         end)%bool)
           (funcNames (Decls (file s)))
  /\ (NoDup (funcNames (Decls (file s))) ->
      NoDup (funcNames (Decls (file (restoreCode s)))))
  /\ filter (isFuncNamed "main") (Decls (file (restoreCode s)))
     = filter (isFuncNamed "main") (Decls (file s)).
Proof.
  unfold restoreCode. cbn [setDecls setMainBody file Decls lastDecls].
  split; [apply funcNames_restoreDecls |].
  split; [| apply filter_main_restoreDecls].
  intro Hnd. rewrite funcNames_restoreDecls. now apply NoDup_filter.
Qed.

Lemma restoreCode_keeps_names_witness :
  NoDup (funcNames (Decls (file (restoreCode Sample.sessionMainReplaced)))).
Proof.
  apply (restoreCode_keeps_names Sample.sessionMainReplaced).
  vm_compute. repeat constructor; simpl; intuition discriminate.
Defined.

Lemma funcNames_removeFunc (n : string) (decls : list Decl) :
  NoDup (funcNames decls) ->
  NoDup (funcNames (removeFunc n decls))
  /\ ~ In n (funcNames (removeFunc n decls)).
Proof.
  induction decls as [| d rest IH]; intro Hnd.
  - split; [constructor | intros []].
  - destruct d as [tok specs | r m t b]; cbn [removeFunc isFuncNamed].
    + cbn [funcNames flat_map app] in *. now apply IH.
    + cbn [funcNames flat_map app] in Hnd.
      change (flat_map _ rest) with (funcNames rest) in Hnd.
      inversion Hnd as [| x l Hnotin Hnd']; subst.
      destruct (String.eqb m n) eqn:Hm.
      * apply String.eqb_eq in Hm. subst m. now split.
      * destruct (IH Hnd') as [IH1 IH2].
        cbn [funcNames flat_map app].
        change (flat_map _ (removeFunc n rest))
          with (funcNames (removeFunc n rest)).
        split.
        -- constructor; [| assumption].
           intro Hin. apply Hnotin. clear -Hin.
           induction rest as [| d rest IHr]; [contradiction |].
           destruct d as [tok specs | r' m' t' b'];
             cbn [removeFunc isFuncNamed] in Hin.
           ++ cbn [funcNames flat_map app] in *. now apply IHr.
           ++ destruct (String.eqb m' n).
              ** now right.
              ** cbn [funcNames flat_map app] in *.
                 destruct Hin as [-> | Hin]; [now left | right; now apply IHr].
        -- intros [-> | Hin]; [| contradiction].
           now rewrite String.eqb_refl in Hm.
Qed.

Lemma filter_isGenDecl_removeFunc (n : string) (decls : list Decl) :
  filter isGenDecl (removeFunc n decls) = filter isGenDecl decls.
Proof.
  induction decls as [| d rest IH]; [reflexivity |].
  destruct d as [tok specs | r m t b]; cbn [removeFunc isFuncNamed].
  - cbn [filter isGenDecl]. now rewrite IH.
  - destruct (String.eqb m n); [reflexivity |].
    cbn [filter isGenDecl]. exact IH.
Qed.

Lemma length_removeFunc (n : string) (decls : list Decl) :
  length (removeFunc n decls) <= length decls.
Proof.
  induction decls as [| d rest IH]; [apply le_n |].
  cbn [removeFunc]. destruct (isFuncNamed n d); cbn [length]; lia.
Qed.

(** What classification can do to a session: the main block grows at
    its end or stays, and the declarations either stay or lose the
    first function of one name and gain a function of that name at the
    end.  When an error comes back the program is untouched. *)
Lemma Eval_input_shape (E : Env) (in_ : string) (s s' : Session)
      (err : option error) :
  Eval_input E in_ s = Returns s' err ->
  (exists stmts, mainBody s' = mainBody s ++ stmts)
  /\ (Decls (file s') = Decls (file s)
      \/ exists r n t b,
          Decls (file s')
          = removeFunc n (Decls (file s)) ++ [FuncDecl r n t b])
  /\ (err <> None -> program s' = program s).
Proof.
  unfold Eval_input, evalExpr, evalStmt, evalFunc.
  intro H. repeat break_match; try discriminate;
    repeat match goal with
           | H' : (_, _) = (_, _) |- _ => inversion H'; subst; clear H'
           | H' : Returns _ _ = Returns _ _ |- _ =>
               inversion H'; subst; clear H'
           end;
    (split; [first [ now (exists []; rewrite app_nil_r)
                   | now (eexists; reflexivity) ]
            | split; [first [ now left
                            | right; now (do 4 eexists; reflexivity) ]
                     | first [ reflexivity
                             | now (intro Hne; elim Hne) ] ] ]).
Qed.

Lemma length_removeFunc_S (n : string) (decls : list Decl) :
  length decls <= S (length (removeFunc n decls)).
Proof.
  induction decls as [| d rest IH]; [apply Nat.le_0_l |].
  cbn [removeFunc]. destruct (isFuncNamed n d); cbn [length]; lia.
Qed.

(** X7.  What splicing does to the program.  The statements of the
    entry point are never removed or reordered: the old ones are a
    prefix of the new ones.  The declarations change in one way only:
    either they stay, or the first function of some name is removed (if
    there is one) and a function of that name is put at the end; so the
    declarations that are not functions are untouched, the number of
    declarations stays or goes up by one, and unique function names
    stay unique.  An input that is refused (incomplete, or an illegal
    token) leaves the program as it was. *)
Theorem Eval_input_effect (E : Env) (in_ : string) (s s' : Session)
        (err : option error) :
  Eval_input E in_ s = Returns s' err ->
  (exists stmts, mainBody s' = mainBody s ++ stmts)
  /\ (Decls (file s') = Decls (file s)
      \/ exists r n t b,
          Decls (file s')
          = removeFunc n (Decls (file s)) ++ [FuncDecl r n t b])
  /\ filter isGenDecl (Decls (file s')) = filter isGenDecl (Decls (file s))
  /\ length (Decls (file s)) <= length (Decls (file s'))
  /\ length (Decls (file s')) <= S (length (Decls (file s)))
  /\ (NoDup (funcNames (Decls (file s))) ->
      NoDup (funcNames (Decls (file s'))))
  /\ (err <> None -> program s' = program s).
Proof.
  intro H. destruct (Eval_input_shape E in_ s s' err H)
    as (Hstmts & Hdecls & Herr).
  split; [assumption |]. split; [assumption |].
  destruct Hdecls as [Hsame | (r & n & t & b & Hnew)].
  - rewrite Hsame. repeat split; auto.
  - rewrite Hnew. split; [| split; [| split; [| split]]].
    + rewrite filter_app, filter_isGenDecl_removeFunc.
      cbn [filter isGenDecl]. apply app_nil_r.
    + rewrite length_app. cbn [length].
      pose proof (length_removeFunc_S n (Decls (file s))). lia.
    + rewrite length_app. cbn [length].
      pose proof (length_removeFunc n (Decls (file s))). lia.
    + intro Hnd. destruct (funcNames_removeFunc n _ Hnd) as [Hnd' Hnot].
      rewrite funcNames_app. cbn [funcNames flat_map app].
      apply NoDup_app; [assumption | repeat constructor; intros [] |].
      intros x Hin [<- | []]. contradiction.
    + assumption.
Qed.

Lemma Eval_input_effect_witness :
  NoDup (funcNames (Decls (file
     (setDecls (removeFunc "f" (Decls (file Sample.sessionFG))
                ++ [Sample.declF'])
               Sample.sessionFG)))).
Proof.
  apply (Eval_input_effect (Sample.env Sample.succeeds) Sample.inF'
                           Sample.sessionFG _ None eq_refl).
  vm_compute. repeat constructor; simpl; intuition discriminate.
Defined.

(** X8.  A rollback does not undo a redefinition of the entry point: once a
    declaration named [main] has been spliced, [restoreCode] leaves it
    in the declarations whatever the checkpoint holds. *)
Theorem restoreCode_keeps_new_main
        (E : Env) (in_ : string) (s : Session) (f : File)
        (r : option string) (t : string) (b : Body) :
  ParseFile E (funcSrc in_) = Some f ->
  Decls f = [FuncDecl r "main" t b] ->
  length (filter (isFuncNamed "main") (Decls (file s))) <= 1 ->
  filter (isFuncNamed "main")
         (Decls (file (restoreCode (fst (evalFunc E in_ s)))))
  = [FuncDecl r "main" t b].
Proof.
  intros Hf Hd Hcount.
  rewrite (evalFunc_single E in_ s f r "main" t b Hf Hd). cbn [fst].
  unfold restoreCode. cbn [setDecls setMainBody file Decls lastDecls].
  rewrite filter_main_restoreDecls, filter_app, filter_removeFunc.
  cbn [filter isFuncNamed]. rewrite String.eqb_refl.
  destruct (filter (isFuncNamed "main") (Decls (file s))) as [| d [| d' l]];
    try reflexivity.
  simpl in Hcount. lia.
Qed.

Lemma restoreCode_keeps_new_main_witness :
  filter (isFuncNamed "main")
         (Decls (file (restoreCode
                         (fst (evalFunc (Sample.env (Sample.exits 2))
                                        Sample.inMain'
                                        (storeCode Sample.session0))))))
  = [Sample.declMain'].
Proof.
  apply (restoreCode_keeps_new_main
           (Sample.env (Sample.exits 2)) Sample.inMain'
           (storeCode Sample.session0)
           (Sample.fileOf "main" Sample.declMain')).
  - reflexivity.
  - reflexivity.
  - vm_compute. lia.
Defined.

(* ------------------------------------------------------------------ *)
(** *** [parseTokens] *)

(** X9.  [parseTokens] fails exactly when the scanner meets an illegal token
    before the end of the input, and the error carries the literal of
    the first such token; whatever follows the end-of-file token is not
    looked at. *)
Theorem parseTokens_illegal_iff (E : Env) (in_ : string) :
  (forall e, parseTokens E in_ = Some e
             <-> exists lit, e = ErrInvalidToken lit
                             /\ scansIllegal (Scan E in_) lit)
  /\ (forall pre lit post,
        Scan E in_ = pre ++ (EOF, lit) :: post ->
        Forall (fun tk => exists n, fst tk = OtherToken n) pre ->
        parseTokens E in_ = None).
Proof.
  unfold parseTokens. split.
  - intro e. split.
    + apply parseTokensLoop_error.
    + intros (lit & -> & Hlit). now apply parseTokensLoop_illegal.
  - intros pre lit post -> Hpre.
    induction Hpre as [| [tok l] pre (n & Hn) _ IH]; [reflexivity |].
    simpl in Hn. subst tok. exact IH.
Qed.

Lemma parseTokens_illegal_iff_witness :
  parseTokens (Sample.env Sample.succeeds) "a # b"
  = Some (ErrInvalidToken "#").
Proof.
  apply (proj1 (parseTokens_illegal_iff (Sample.env Sample.succeeds)
                                        "a # b")).
  exists "#". split; [reflexivity |].
  exists [(OtherToken "IDENT", "a")],
         [(OtherToken "IDENT", "b"); (OtherToken ";", ""); (EOF, "")].
  split; [reflexivity |].
  constructor; [now exists "IDENT" | constructor].
Defined.

(* ================================================================== *)
(** ** Further properties of [actionImport] *)

Section ImportSeveral.

Variable E : Env.

Lemma actionImportFuel_field (s : Session) (v : string) :
  Strings.Contains v " " = false ->
  Strings.isEmpty v = false ->
  actionImportFuel E 1 s v
  = match Import E (Strings.Trim v dquote) with
    | Some err => Some (s, Some err)
    | None => Some (importAll [v] s, None)
    end.
Proof.
  intros Hsp Hne. rewrite actionImportFuel_path by assumption.
  now rewrite Hne.
Qed.

Lemma importEach_importable (vs : list string) (s : Session) :
  (forall v, In v vs ->
     Strings.Contains v " " = false /\ Strings.isEmpty v = false) ->
  (forall v, In v vs -> Import E (Strings.Trim v dquote) = None) ->
  importEach (actionImportFuel E 1) vs s = Some (importAll vs s, None).
Proof.
  revert s. induction vs as [| v vs IH]; intros s Hf Hi; [reflexivity |].
  destruct (Hf v (or_introl eq_refl)) as [Hsp Hne].
  cbn [importEach]. rewrite Hne, actionImportFuel_field by assumption.
  rewrite (Hi v (or_introl eq_refl)).
  rewrite IH; [reflexivity | |]; intros; [apply Hf | apply Hi]; now right.
Qed.

Lemma importEach_stops (vs1 vs2 : list string) (v : string) (s : Session)
      (err : error) :
  (forall u, In u (vs1 ++ [v]) ->
     Strings.Contains u " " = false /\ Strings.isEmpty u = false) ->
  (forall u, In u vs1 -> Import E (Strings.Trim u dquote) = None) ->
  Import E (Strings.Trim v dquote) = Some err ->
  importEach (actionImportFuel E 1) (vs1 ++ v :: vs2) s
  = Some (importAll vs1 s, Some err).
Proof.
  revert s. induction vs1 as [| u vs1 IH]; intros s Hf Hi Hv.
  - destruct (Hf v (or_introl eq_refl)) as [Hsp Hne].
    cbn [app importEach]. rewrite Hne, actionImportFuel_field by assumption.
    now rewrite Hv.
  - destruct (Hf u (or_introl eq_refl)) as [Hsp Hne].
    cbn [app importEach]. rewrite Hne, actionImportFuel_field by assumption.
    rewrite (Hi u (or_introl eq_refl)).
    rewrite IH; [reflexivity | | | assumption].
    + intros w Hw. apply Hf. now right.
    + intros w Hw. apply Hi. now right.
Qed.

End ImportSeveral.

Lemma Contains_space_nonempty (arg : string) :
  Strings.Contains arg " " = true -> Strings.isEmpty arg = false.
Proof. destruct arg; [discriminate | reflexivity]. Qed.

(** X10.  An argument holding several paths imports them one after the
    other, in the order written.  If all resolve, all are imported and
    the result is nil.  At the first path that does not resolve the
    command stops with the importer's error: the paths before it stay
    imported, those after it are not tried. *)
Theorem actionImport_several (E : Env) (s : Session) (arg : string) :
  Strings.Contains arg " " = true ->
  ((forall v, In v (Strings.Fields arg) ->
      Import E (Strings.Trim v dquote) = None) ->
   actionImport E s arg = Some (importAll (Strings.Fields arg) s, None))
  /\ (forall vs1 v vs2 err,
        Strings.Fields arg = vs1 ++ v :: vs2 ->
        (forall u, In u vs1 -> Import E (Strings.Trim u dquote) = None) ->
        Import E (Strings.Trim v dquote) = Some err ->
        actionImport E s arg = Some (importAll vs1 s, Some err)).
Proof.
  intro Hsp. unfold actionImport. rewrite actionImportFuel_S.
  rewrite (Contains_space_nonempty arg Hsp), Hsp.
  split.
  - intro Hall. apply importEach_importable; [| assumption].
    intros v Hin. now apply Fields_field with arg.
  - intros vs1 v vs2 err Hfields Hbefore Hfail. rewrite Hfields.
    apply importEach_stops; try assumption.
    intros u Hu. apply Fields_field with arg. rewrite Hfields.
    apply in_app_or in Hu. apply in_or_app.
    destruct Hu as [Hu | [<- | []]]; [now left | right; now left].
Qed.

Lemma actionImport_several_witness :
  actionImport (Sample.env Sample.succeeds) Sample.session0
               "os no/such/pkg fmt"
  = Some (importAll ["os"] Sample.session0,
          Some (ErrOther "cannot find package")).
Proof.
  apply (proj2 (actionImport_several (Sample.env Sample.succeeds)
                                     Sample.session0 "os no/such/pkg fmt"
                                     eq_refl))
    with (v := "no/such/pkg") (vs2 := ["fmt"]).
  - reflexivity.
  - intros u [<- | []]. reflexivity.
  - reflexivity.
Defined.

Lemma TrimRightFunc_snoc (f : ascii -> bool) (x : string) (c : ascii) :
  f c = true ->
  Strings.TrimRightFunc f (x ++ String c EmptyString)
  = Strings.TrimRightFunc f x.
Proof.
  intro Hc. induction x as [| d r IH].
  - cbn. now rewrite Hc.
  - change (String d r ++ String c EmptyString)%string
      with (String d (r ++ String c EmptyString)).
    cbn [Strings.TrimRightFunc]. now rewrite IH.
Qed.

Lemma Trim_snoc (f : ascii -> bool) (x : string) (c : ascii) :
  f c = true ->
  Strings.TrimRightFunc f
    (Strings.TrimLeftFunc f (x ++ String c EmptyString))
  = Strings.TrimRightFunc f (Strings.TrimLeftFunc f x).
Proof.
  intro Hc. induction x as [| d r IH].
  - cbn. now rewrite Hc.
  - change (String d r ++ String c EmptyString)%string
      with (String d (r ++ String c EmptyString)).
    cbn [Strings.TrimLeftFunc]. destruct (f d); [exact IH |].
    now apply (TrimRightFunc_snoc f (String d r) c).
Qed.

Lemma Trim_quoted (p : string) :
  Strings.Trim (dquote ++ p ++ dquote) dquote = Strings.Trim p dquote.
Proof.
  unfold Strings.Trim.
  change (dquote ++ p ++ dquote)%string
    with (String (ascii_of_nat 34) (p ++ dquote)).
  change (Strings.TrimLeftFunc (Strings.inCutset dquote)
            (String (ascii_of_nat 34) (p ++ dquote)))
    with (Strings.TrimLeftFunc (Strings.inCutset dquote) (p ++ dquote)).
  now apply Trim_snoc.
Qed.

(** X11.  A path may be written with or without its double quotes, as the
    import specifications of an included file have them: the quoted
    argument does what the bare one does. *)
Theorem actionImport_quoted (E : Env) (s : Session) (p : string) :
  Strings.isEmpty p = false ->
  Strings.Contains p " " = false ->
  actionImport E s (dquote ++ p ++ dquote) = actionImport E s p.
Proof.
  intros Hne Hsp. unfold actionImport.
  assert (Hq : Strings.Contains (dquote ++ p ++ dquote) " " = false).
  { change (dquote ++ p ++ dquote)%string
      with (String (ascii_of_nat 34) (p ++ dquote)).
    rewrite Contains_space_cons.
    pose proof (Contains_space_snoc p (ascii_of_nat 34) Hsp eq_refl) as Hs.
    change (String (ascii_of_nat 34) EmptyString) with dquote in Hs.
    now rewrite Hs. }
  rewrite !actionImportFuel_path by assumption.
  rewrite Trim_quoted, Hne. reflexivity.
Qed.

Lemma actionImport_quoted_witness :
  actionImport (Sample.env Sample.succeeds) Sample.session0
               (dquote ++ "os" ++ dquote)
  = actionImport (Sample.env Sample.succeeds) Sample.session0 "os".
Proof.
  apply (actionImport_quoted (Sample.env Sample.succeeds)
                             Sample.session0 "os"); reflexivity.
Defined.

(** X12.  [actionImport] returns on every argument, and its calls to itself
    never nest deeper than once: a field of the argument holds no
    space, so more depth changes nothing. *)
Theorem actionImport_returns (E : Env) (n : nat) (s : Session)
        (arg : string) :
  exists r,
    actionImport E s arg = Some r
    /\ actionImportFuel E (2 + n) s arg = Some r.
Proof.
  destruct (actionImport_total E s arg) as [r Hr].
  exists r. split; [assumption |].
  now rewrite actionImportFuel_enough.
Qed.

(* ================================================================== *)
(** ** Further properties of [actionType] *)

(** X13.  What the type query reports.  The type is taken in the program
    that holds the print-wrapped expression; it is written to the
    output, one line, exactly when the query succeeds.  An empty
    argument, an expression that does not parse, an expression without
    a type each give their error and write nothing.  The error stream is
    never written by the command itself. *)
Theorem actionType_reports (E : Env) (s : Session) (in_ : string) :
  stderr (fst (actionType E s in_)) = stderr s
  /\ (Strings.isEmpty in_ = true ->
      actionType E s in_ = (s, Some ErrArgRequired))
  /\ (Strings.isEmpty in_ = false ->
      ParseExpr E in_ = None ->
      snd (actionType E s in_) = Some ErrSyntax
      /\ stdout (fst (actionType E s in_)) = stdout s)
  /\ (forall e,
        Strings.isEmpty in_ = false ->
        ParseExpr E in_ = Some e ->
        match TypeOf E (program (appendStatements [printCall [e]]
                                                  (checkpointed E s))) e with
        | Some typ =>
            snd (actionType E s in_) = None
            /\ stdout (fst (actionType E s in_)) = stdout s ++ [typ]
        | None =>
            snd (actionType E s in_) = Some (ErrCannotGetType e)
            /\ stdout (fst (actionType E s in_)) = stdout s
        end).
Proof.
  unfold actionType, actionType_body, evalExpr, checkpointed.
  destruct (Strings.isEmpty in_); repeat split; try discriminate;
    try (match goal with
         | He : ParseExpr E in_ = None |- _ => now rewrite He
         end).
  - destruct (ParseExpr E in_) as [e |]; [| reflexivity].
    now destruct (TypeOf E _ e).
  - intros e _ He. rewrite He.
    unfold printCall.
    destruct (TypeOf E
                (program
                   (appendStatements
                      [ExprStmt (CallExpr (Ident printerName) [e])]
                      (storeCode (withProgram (clearQuickFix E) s)))) e);
      split; reflexivity.
Qed.

Lemma actionType_reports_witness :
  snd (actionType (Sample.env Sample.succeeds) Sample.session0 "nonsense")
  = Some ErrSyntax
  /\ stdout (fst (actionType (Sample.env Sample.succeeds) Sample.session0
                             "nonsense")) = stdout Sample.session0.
Proof.
  apply (actionType_reports (Sample.env Sample.succeeds) Sample.session0
                            "nonsense"); reflexivity.
Defined.

(* ================================================================== *)
(** ** The command line: [invokeCommand] *)

Lemma TrimLeftFunc_all (f : ascii -> bool) (s : string) :
  allChars f s = true -> Strings.TrimLeftFunc f s = EmptyString.
Proof.
  induction s as [| c r IH]; [reflexivity |].
  cbn [allChars Strings.TrimLeftFunc]. intro H.
  apply andb_true_iff in H. destruct H as [Hc Hr]. rewrite Hc. now apply IH.
Qed.

Lemma TrimLeftFunc_some (f : ascii -> bool) (s : string) :
  allChars f s = false ->
  exists c r, Strings.TrimLeftFunc f s = String c r /\ f c = false.
Proof.
  induction s as [| c r IH]; [discriminate |].
  cbn [allChars Strings.TrimLeftFunc]. intro H.
  destruct (f c) eqn:Hc.
  - apply IH. exact H.
  - now exists c, r.
Qed.

Lemma append_snoc (cur r : string) (c : ascii) :
  ((cur ++ String c EmptyString) ++ r)%string = (cur ++ String c r)%string.
Proof.
  induction cur as [| d cur IH]; [reflexivity |].
  cbn [String.append]. now rewrite IH.
Qed.

Lemma allChars_snoc (f : ascii -> bool) (cur : string) (c : ascii) :
  allChars f cur = true -> f c = true ->
  allChars f (cur ++ String c EmptyString) = true.
Proof.
  intros Hcur Hc. induction cur as [| d cur IH].
  - cbn. now rewrite Hc.
  - cbn [String.append allChars] in *.
    apply andb_true_iff in Hcur. destruct Hcur as [Hd Hrest].
    rewrite Hd. now apply IH.
Qed.

(** The first field of a text that does not begin with white space is
    its leading run of characters other than white space. *)
Lemma fieldsFrom_split (s cur : string) :
  allChars (fun c => negb (Strings.isSpace c)) cur = true ->
  (Strings.isEmpty cur = false
   \/ exists c r, s = String c r /\ Strings.isSpace c = false) ->
  exists v vs rest,
    Strings.fieldsFrom cur s = v :: vs
    /\ (cur ++ s)%string = (v ++ rest)%string
    /\ Strings.isEmpty v = false
    /\ allChars (fun c => negb (Strings.isSpace c)) v = true
    /\ (rest = EmptyString
        \/ exists c r, rest = String c r /\ Strings.isSpace c = true).
Proof.
  revert cur. induction s as [| c r IH]; intros cur Hcur Hstart.
  - destruct Hstart as [Hne | (c & r & Hs & _)]; [| discriminate].
    exists cur, [], EmptyString. cbn [Strings.fieldsFrom]. rewrite Hne.
    repeat split; auto.
  - cbn [Strings.fieldsFrom]. destruct (Strings.isSpace c) eqn:Hc.
    + destruct Hstart as [Hne | (c' & r' & Hs & Hc')];
        [| inversion Hs; subst; congruence].
      rewrite Hne. exists cur, (Strings.fieldsFrom EmptyString r), (String c r).
      repeat split; auto. right. now exists c, r.
    + destruct (IH (cur ++ String c EmptyString)%string)
        as (v & vs & rest & Hf & Happ & Hne & Hall & Hrest).
      * apply allChars_snoc; [assumption | now rewrite Hc].
      * left. now destruct cur.
      * exists v, vs, rest. rewrite append_snoc in Happ.
        repeat split; assumption.
Qed.

Lemma prefix_append (v rest : string) : String.prefix v (v ++ rest) = true.
Proof.
  induction v as [| c v IH]; [now destruct rest |].
  cbn [String.append String.prefix].
  destruct (ascii_dec c c) as [_ | Hne]; [exact IH | now elim Hne].
Qed.

Lemma drop_append (v rest : string) :
  Cmd.drop (String.length v) (v ++ rest) = rest.
Proof.
  induction v as [| c v IH]; [reflexivity |]. exact IH.
Qed.

Lemma TrimPrefix_append (v rest : string) :
  Cmd.TrimPrefix (v ++ rest) v = rest.
Proof.
  unfold Cmd.TrimPrefix, Strings.HasPrefix.
  now rewrite prefix_append, drop_append.
Qed.

Section DispatchFacts.

Variable matches : string -> string -> bool.
Variable Errorf : string -> error -> error.
Variable commands : list Cmd.command.

(** X14.  A line of nothing but colons and white space runs no command: the
    result is nil and the session is the one given. *)
Theorem invokeCommand_blank (in_ : string) (s : Session) :
  allChars Cmd.isColonOrSpace in_ = true ->
  Cmd.invokeCommand matches Errorf commands in_ s = (s, None).
Proof.
  intro H. unfold Cmd.invokeCommand.
  now rewrite (TrimLeftFunc_all _ _ H).
Qed.

(** X15.  How a command line is cut.  After the leading colons and white
    space, the command word is the run of characters up to the first
    white space: it is not empty, holds no white space and does not
    begin with a colon.  The action gets what follows the word, white
    space trimmed at both ends. *)
Theorem invokeCommand_splits (in_ : string) :
  allChars Cmd.isColonOrSpace in_ = false ->
  exists cmd rest,
    Strings.TrimLeftFunc Cmd.isColonOrSpace in_ = (cmd ++ rest)%string
    /\ Strings.isEmpty cmd = false
    /\ allChars (fun c => negb (Strings.isSpace c)) cmd = true
    /\ Strings.HasPrefix cmd ":" = false
    /\ (rest = EmptyString
        \/ exists c r, rest = String c r /\ Strings.isSpace c = true)
    /\ forall s,
        Cmd.invokeCommand matches Errorf commands in_ s
        = Cmd.dispatch matches Errorf commands s cmd
                       (Strings.TrimSpace rest).
Proof.
  intro H.
  destruct (TrimLeftFunc_some _ _ H) as (c & r & Htrim & Hc).
  unfold Cmd.isColonOrSpace in Hc. apply orb_false_iff in Hc.
  destruct Hc as [Hcolon Hspace].
  destruct (fieldsFrom_split (String c r) EmptyString eq_refl)
    as (v & vs & rest & Hf & Happ & Hne & Hall & Hrest).
  { right. now exists c, r. }
  cbn [String.append] in Happ.
  exists v, rest. rewrite Htrim.
  split; [assumption |]. split; [assumption |]. split; [assumption |].
  split.
  - destruct v as [| d v']; [discriminate |].
    cbn [String.append] in Happ. inversion Happ; subst d.
    unfold Strings.HasPrefix. cbn [String.prefix].
    destruct (ascii_dec ":" c) as [<- | Hne']; [discriminate | reflexivity].
  - split; [assumption |].
    intro s. unfold Cmd.invokeCommand. rewrite Htrim.
    unfold Strings.Fields. rewrite Hf, Happ.
    now rewrite TrimPrefix_append.
Qed.

Lemma dispatch_skips (pre rest : list Cmd.command) (s : Session)
      (cmd arg : string) :
  (forall c, In c pre -> matches (Cmd.name c) cmd = false) ->
  Cmd.dispatch matches Errorf (pre ++ rest) s cmd arg
  = Cmd.dispatch matches Errorf rest s cmd arg.
Proof.
  induction pre as [| c pre IH]; intro H; [reflexivity |].
  cbn [app Cmd.dispatch]. rewrite (H c (or_introl eq_refl)). cbn [negb].
  apply IH. intros c' Hin. apply H. now right.
Qed.

(** X16.  A command word that no entry of the table matches gives the
    command-not-found error naming the word, and no action is run: the
    session is the one given. *)
Theorem invokeCommand_not_found (in_ : string) (s : Session)
        (cmd : string) (toks : list string) :
  Strings.Fields (Strings.TrimLeftFunc Cmd.isColonOrSpace in_) = cmd :: toks ->
  (forall c, In c commands -> matches (Cmd.name c) cmd = false) ->
  Cmd.invokeCommand matches Errorf commands in_ s
  = (s, Some (ErrOther ("command not found: " ++ cmd)%string)).
Proof.
  intros Hf Hnone. unfold Cmd.invokeCommand. rewrite Hf.
  rewrite <- (app_nil_r commands).
  now rewrite dispatch_skips.
Qed.

Lemma dispatch_first (pre post : list Cmd.command) (c : Cmd.command)
      (s : Session) (cmd arg : string) :
  (forall c', In c' pre -> matches (Cmd.name c') cmd = false) ->
  matches (Cmd.name c) cmd = true ->
  Cmd.dispatch matches Errorf (pre ++ c :: post) s cmd arg
  = (fst (Cmd.action c s arg),
     match snd (Cmd.action c s arg) with
     | None => None
     | Some ErrQuit => Some ErrQuit
     | Some err => Some (Errorf (Cmd.name c) err)
     end).
Proof.
  intros Hpre Hc. rewrite dispatch_skips by assumption.
  cbn [Cmd.dispatch]. rewrite Hc. cbn [negb].
  destruct (Cmd.action c s arg) as [s' [e |]]; [| reflexivity].
  now destruct e.
Qed.

(** X17.  The first entry of the table that matches the command word is the
    one run, and the only one.  Its nil result and the quit sentinel
    come back as they are; any other error comes back wrapped with the
    name of the command. *)
Theorem invokeCommand_first_match (in_ : string) (s : Session)
        (cmd : string) (toks : list string)
        (pre post : list Cmd.command) (c : Cmd.command) :
  Strings.Fields (Strings.TrimLeftFunc Cmd.isColonOrSpace in_) = cmd :: toks ->
  commands = pre ++ c :: post ->
  (forall c', In c' pre -> matches (Cmd.name c') cmd = false) ->
  matches (Cmd.name c) cmd = true ->
  Cmd.invokeCommand matches Errorf commands in_ s
  = let r := Cmd.action c s
               (Strings.TrimSpace
                  (Cmd.TrimPrefix
                     (Strings.TrimLeftFunc Cmd.isColonOrSpace in_) cmd)) in
    (fst r,
     match snd r with
     | None => None
     | Some ErrQuit => Some ErrQuit
     | Some err => Some (Errorf (Cmd.name c) err)
     end).
Proof.
  intros Hf Htable Hpre Hc. unfold Cmd.invokeCommand. rewrite Hf, Htable.
  now apply dispatch_first.
Qed.

End DispatchFacts.

Lemma invokeCommand_blank_witness :
  Cmd.invokeCommand Sample.firstLetter Sample.errorf Sample.table
                    " : : " Sample.session0
  = (Sample.session0, None).
Proof.
  apply (invokeCommand_blank Sample.firstLetter Sample.errorf Sample.table
                             " : : " Sample.session0).
  reflexivity.
Defined.

Lemma invokeCommand_splits_witness :
  exists cmd rest,
    Strings.TrimLeftFunc Cmd.isColonOrSpace ":import  os " = (cmd ++ rest)%string
    /\ Strings.isEmpty cmd = false
    /\ allChars (fun c => negb (Strings.isSpace c)) cmd = true
    /\ Strings.HasPrefix cmd ":" = false
    /\ (rest = EmptyString
        \/ exists c r, rest = String c r /\ Strings.isSpace c = true)
    /\ forall s,
        Cmd.invokeCommand Sample.firstLetter Sample.errorf Sample.table
                          ":import  os " s
        = Cmd.dispatch Sample.firstLetter Sample.errorf Sample.table s cmd
                       (Strings.TrimSpace rest).
Proof.
  apply (invokeCommand_splits Sample.firstLetter Sample.errorf Sample.table
                              ":import  os ").
  reflexivity.
Defined.

Lemma invokeCommand_not_found_witness :
  Cmd.invokeCommand Sample.firstLetter Sample.errorf Sample.table
                    ":x 1" Sample.session0
  = (Sample.session0, Some (ErrOther "command not found: x")).
Proof.
  apply (invokeCommand_not_found Sample.firstLetter Sample.errorf Sample.table
                                 ":x 1" Sample.session0 "x" ["1"]).
  - reflexivity.
  - intros c [<- | [<- | [<- | []]]]; reflexivity.
Defined.

Lemma invokeCommand_first_match_witness :
  Cmd.invokeCommand Sample.firstLetter Sample.errorf Sample.table
                    ":import no/such/pkg" Sample.session0
  = (Sample.session0, Some (ErrOther "i[mport]: failed")).
Proof.
  apply (invokeCommand_first_match
           Sample.firstLetter Sample.errorf Sample.table
           ":import no/such/pkg" Sample.session0 "import" ["no/such/pkg"]
           [] [Cmd.mkCommand "t[ype]"
                 (actionType (Sample.env Sample.succeeds));
               Cmd.mkCommand "q[uit]" (fun s _ => (s, Some ErrQuit))]
           (Cmd.mkCommand "i[mport]" Sample.importAction)).
  - reflexivity.
  - reflexivity.
  - intros c' [].
  - reflexivity.
Defined.

(** X18.  How [Eval] reports what a command returns, the command line going
    through [invokeCommand]: the quit sentinel of the matching command
    comes back as it is and nothing is written to the error stream; any
    other error of the command comes back wrapped and is written to the
    error stream. *)
Theorem Eval_command_errors
        (E : Env) (matches : string -> string -> bool)
        (Errorf : string -> error -> error) (commands : list Cmd.command)
        (in_ : string) (s : Session) (cmd : string) (toks : list string)
        (pre post : list Cmd.command) (c : Cmd.command)
        (s' : Session) (err : error) :
  isCommand in_ = true ->
  invokeCommand E = Cmd.invokeCommand matches Errorf commands ->
  Strings.Fields (Strings.TrimLeftFunc Cmd.isColonOrSpace in_) = cmd :: toks ->
  commands = pre ++ c :: post ->
  (forall c', In c' pre -> matches (Cmd.name c') cmd = false) ->
  matches (Cmd.name c) cmd = true ->
  Cmd.action c (checkpointed E s)
             (Strings.TrimSpace
                (Cmd.TrimPrefix
                   (Strings.TrimLeftFunc Cmd.isColonOrSpace in_) cmd))
  = (s', Some err) ->
  (err = ErrQuit -> Eval E in_ s = Returns s' (Some ErrQuit))
  /\ (err <> ErrQuit ->
      Errorf (Cmd.name c) err <> ErrQuit ->
      Eval E in_ s
      = Returns (printErr (Errorf (Cmd.name c) err) s')
                (Some (Errorf (Cmd.name c) err))).
Proof.
  intros Hcmd Hinv Hf Htable Hpre Hc Hact.
  unfold Eval. rewrite Hcmd, Hinv.
  fold (checkpointed E s).
  unfold Cmd.invokeCommand. rewrite Hf, Htable.
  rewrite (dispatch_first matches Errorf pre post c (checkpointed E s) cmd _
             Hpre Hc).
  rewrite Hact. cbn [fst snd].
  split.
  - intros ->. reflexivity.
  - intros Hne Hwrap.
    destruct err; try (now elim Hne);
      destruct (Errorf (Cmd.name c) _) eqn:Hw; try reflexivity;
      now elim Hwrap.
Qed.

Lemma Eval_command_errors_witness :
  Eval Sample.cmdEnv ":q" Sample.session0
  = Returns (storeCode Sample.session0) (Some ErrQuit).
Proof.
  refine (proj1 (Eval_command_errors
                   Sample.cmdEnv Sample.firstLetter Sample.errorf Sample.table
                   ":q" Sample.session0 "q" []
                   [Cmd.mkCommand "i[mport]" Sample.importAction;
                    Cmd.mkCommand "t[ype]"
                      (actionType (Sample.env Sample.succeeds))]
                   []
                   (Cmd.mkCommand "q[uit]" (fun s _ => (s, Some ErrQuit)))
                   (storeCode Sample.session0) ErrQuit
                   eq_refl eq_refl eq_refl eq_refl _ eq_refl eq_refl)
                eq_refl).
  intros c' [<- | [<- | []]]; reflexivity.
Defined.

(* ================================================================== *)
(** ** The checkpoint across [Eval] *)

(** X4.  On exit status 2 the statement list of the block
    [s.mainBody] points to is the one of the program on entry (after
    the clearing pass), whatever was spliced and whatever the passes
    before the run did to the tree.  The declarations are those at the
    time of the run put through the rule of [restoreCode], and the
    declarations named [main] among them are kept as they stand: the
    entry point shows the restored statements as long as it is still
    the declaration whose body is that block, while a declaration named
    [main] that the input spliced keeps its own body. *)
Theorem Eval_status2_main_block_restored
        (E : Env) (in_ : string) (s s1 : Session) :
  isCommand in_ = false ->
  Eval_input E in_ (checkpointed E s) = Returns s1 None ->
  Run E (program (Eval_fix E s1)) = RunExitError (Some 2%Z) ->
  exists s',
    Eval E in_ s = Returns s' (Some ErrCmdRun)
    /\ mainBody s' = snd (clearQuickFix E (program s))
    /\ Decls (file s')
       = flat_map (restoredDecl (Decls (fst (clearQuickFix E (program s)))))
                  (Decls (file (Eval_fix E s1)))
    /\ filter (isFuncNamed "main") (Decls (file s'))
       = filter (isFuncNamed "main") (Decls (file (Eval_fix E s1))).
Proof.
  intros Hcmd Hin Hrun.
  destruct (Eval_status2_statements E in_ s s1 Hcmd Hin Hrun)
    as (Heval & Hbody & Hd).
  destruct (checkpointed_program E s) as (Hprog & _ & _).
  exists (restoreCode (Eval_fix E s1)).
  split; [assumption |].
  rewrite Hbody, Hd. rewrite filter_main_restoreDecls.
  rewrite restoreDecls_restoredDecl, <- Hprog. now repeat split.
Qed.

Lemma Eval_status2_main_block_restored_witness :
  exists s',
    Eval (Sample.env (Sample.exits 2)) Sample.inMain' Sample.session0
    = Returns s' (Some ErrCmdRun)
    /\ mainBody s' = []
    /\ Decls (file s')
       = [Sample.importFmtDecl; Sample.printerDecl; Sample.declMain']
    /\ filter (isFuncNamed "main") (Decls (file s')) = [Sample.declMain'].
Proof.
  apply (Eval_status2_main_block_restored
           (Sample.env (Sample.exits 2)) Sample.inMain' Sample.session0
           Sample.sessionMainReplaced).
  - reflexivity.
  - reflexivity.
  - reflexivity.
Defined.

Lemma restoreCode_frame (s : Session) :
  lastStmts (restoreCode s) = lastStmts s
  /\ lastDecls (restoreCode s) = lastDecls s.
Proof. now split. Qed.

(** X5.  There is one checkpoint, the latest: whenever [Eval] returns from a
    line that is not a command, the checkpoint it leaves is the program
    as that call found it (after the clearing pass), whether the input
    was kept, rolled back or refused. *)
Theorem Eval_leaves_entry_checkpoint
        (E : Env) (in_ : string) (s s' : Session) (err : option error) :
  isCommand in_ = false ->
  Eval E in_ s = Returns s' err ->
  lastStmts s' = snd (clearQuickFix E (program s))
  /\ lastDecls s' = Decls (fst (clearQuickFix E (program s))).
Proof.
  intros Hcmd Heval. rewrite (Eval_unfold E in_ s Hcmd) in Heval.
  destruct (checkpointed_program E s) as (Hprog & Hcs & Hcd).
  rewrite <- Hprog. cbn [program fst snd]. rewrite <- Hcs, <- Hcd.
  destruct (Eval_input E in_ (checkpointed E s)) as [s1 [e |] |] eqn:Hin;
    try discriminate.
  - inversion Heval; subst.
    exact (Eval_input_frame E _ _ _ _ Hin).
  - destruct (Eval_input_frame E _ _ _ _ Hin) as [Hs Hd].
    destruct (Eval_fix_frame E s1) as [Hs' Hd'].
    unfold Eval_run in Heval.
    destruct (Run E (program (Eval_fix E s1))) as [| [st |] |];
      try (inversion Heval; subst; split; congruence).
    destruct (Z.eqb st 2); inversion Heval; subst;
      try (split; congruence).
    destruct (restoreCode_frame (Eval_fix E s1)) as [Hr1 Hr2].
    split; congruence.
Qed.

Lemma Eval_leaves_entry_checkpoint_witness :
  lastStmts (appendStatements [printCall [BasicLit "1"]]
                              (storeCode Sample.sessionFG))
  = snd (clearQuickFix (Sample.env (Sample.exits 1))
                       (program Sample.sessionFG))
  /\ lastDecls (appendStatements [printCall [BasicLit "1"]]
                                 (storeCode Sample.sessionFG))
     = Decls (fst (clearQuickFix (Sample.env (Sample.exits 1))
                                 (program Sample.sessionFG))).
Proof.
  apply (Eval_leaves_entry_checkpoint
           (Sample.env (Sample.exits 1)) "1" Sample.sessionFG _
           (Some ErrCmdRun)).
  - reflexivity.
  - reflexivity.
Defined.
